(** * Snake Hunt: the game engine of [src/components/SnakeGame.tsx]

    The React component is embedded as a state machine.  The [useState]
    cells form the record [Game]; the snapshot of that record taken by a
    render is what the callbacks created in that render close over.  A
    callback runs in the monad [M], whose state is the world being built
    for the next render: [useState] setters write to it, functional
    updaters ([setScore (prev => ...)]) read the pending value from it,
    while plain reads of [snake], [food], [score], ... go to the snapshot
    the callback was created with.  [directionRef] is a [useRef] cell, so
    reads and writes of it are immediate.

    [Math.random] is an oracle: the world carries the doubles it is going
    to return, and the product with [GRID_SIZE] is rounded as a double
    product is.  The recursion of [placeFood] uses the call stack: the
    world carries how many nested calls fit, and the call that does not
    fit throws a [RangeError].  An exception ends the callback that
    raised it and leaves the updates queued before it in place.  Every
    updater function is run once per [setState] call; an updater that
    throws is outside the embedding.  Coordinates, score and speed are
    JavaScript numbers holding small integers, modelled as [Z]. *)

From Stdlib Require Import ZArith List Bool String DecimalString Lia SpecFloat.
From ExtLib Require Import Structures.Monad.
Import ListNotations.
Import MonadNotation.

Local Open Scope Z_scope.
Local Open Scope monad_scope.

(** ** Game constants *)

Definition GRID_SIZE : Z := 20.
Definition CELL_SIZE : Z := 20.
Definition INITIAL_SPEED : Z := 150.
Definition SPEED_INCREASE : Z := 5.

(** ** Doubles *)

(** A double that is not negative: [mantissa * 2 ^ exponent], with a
    mantissa below [2 ^ 53] and an exponent from [-1074] up. *)
Record Double : Type := mkDouble { mantissa : Z; exponent : Z }.

(** The integer nearest to [a / b], the even one of two that are equally
    near. *)
Definition nearest_even (a b : Z) : Z :=
  let q := a / b in
  match 2 * (a mod b) ?= b with
  | Lt => q
  | Eq => if Z.even q then q else q + 1
  | Gt => q + 1
  end.

(** [a * k] for a whole number [k]: the exact product, rounded to 53
    significant bits, nearest and ties to even.  (Products here stay far
    below [2 ^ 1024], and a product by a whole number is never too small
    for its exponent.) *)
Definition times (a : Double) (k : Z) : Double :=
  let p := mantissa a * k in
  let s := Z.max 0 (Z.log2 p + 1 - 53) in
  {| mantissa := nearest_even p (2 ^ s); exponent := exponent a + s |}.

Definition Math_floor (d : Double) : Z :=
  if 0 <=? exponent d
  then mantissa d * 2 ^ exponent d
  else mantissa d / 2 ^ (- exponent d).

(** [Math.random()] returns a double in [0, 1). *)
Definition random_ok (r : Double) : Prop :=
  0 <= mantissa r < 2 ^ 53
  /\ -1074 <= exponent r < 0
  /\ mantissa r < 2 ^ (- exponent r).

(** The doubles the literals 0.45, 0.4 and 0.25 denote. *)
Definition d0_45 : Double := {| mantissa := 8106479329266893; exponent := -54 |}.
Definition d0_4 : Double := {| mantissa := 7205759403792794; exponent := -54 |}.
Definition d0_25 : Double := {| mantissa := 1; exponent := -2 |}.

(** ** Data model *)

Inductive Direction : Type := UP | DOWN | LEFT | RIGHT.

Definition Direction_eqb (a b : Direction) : bool :=
  match a, b with
  | UP, UP | DOWN, DOWN | LEFT, LEFT | RIGHT, RIGHT => true
  | _, _ => false
  end.

Record Cell : Type := mkCell { x : Z; y : Z }.

(** The payload of the one [toast] call of the component: the score
    interpolated into its description. *)
Inductive Toast : Type := GameOverToast (final_score : Z).

(** The [useState] cells of the component. *)
Record Game : Type := mkGame {
  snake : list Cell;
  food : Cell;
  direction : Direction;
  gameOver : bool;
  isPaused : bool;
  score : Z;
  speed : Z;
  gameStarted : bool
}.

(** Everything a callback can touch: the state cells, the direction ref,
    the values [Math.random] has yet to return, the toasts shown so far
    (oldest first), and the number of calls of [placeFood], one inside
    the other, that the call stack has room for. *)
Record World : Type := mkWorld {
  state : Game;
  directionRef : Direction;
  random : list Double;
  toasts : list Toast;
  stack : nat
}.

(** ** The callback monad *)

(** "Maximum call stack size exceeded". *)
Inductive Error : Type := RangeError.

Inductive Completion (A : Type) : Type :=
| Returned (a : A)
| Thrown (e : Error).

Arguments Returned {A} a.
Arguments Thrown {A} e.

(** [None]: the embedding does not follow the run any further (the
    values listed for [Math.random] are used up, or an updater has
    thrown). *)
Definition M (A : Type) : Type := World -> option (Completion A * World).

#[global] Instance Monad_M : Monad M := {|
  ret := fun _ a w => Some (Returned a, w);
  bind := fun _ _ c k w =>
    match c w with
    | Some (Returned a, w') => k a w'
    | Some (Thrown e, w') => Some (Thrown e, w')
    | None => None
    end
|}.

Definition update (f : Game -> Game) : M unit :=
  fun w => Some (Returned tt,
                 mkWorld (f (state w)) (directionRef w) (random w) (toasts w) (stack w)).

Definition setSnake (s : list Cell) : M unit :=
  update (fun g => mkGame s (food g) (direction g) (gameOver g)
                          (isPaused g) (score g) (speed g) (gameStarted g)).
Definition setFood (c : Cell) : M unit :=
  update (fun g => mkGame (snake g) c (direction g) (gameOver g)
                          (isPaused g) (score g) (speed g) (gameStarted g)).
Definition setDirection (d : Direction) : M unit :=
  update (fun g => mkGame (snake g) (food g) d (gameOver g)
                          (isPaused g) (score g) (speed g) (gameStarted g)).
Definition setGameOver (b : bool) : M unit :=
  update (fun g => mkGame (snake g) (food g) (direction g) b
                          (isPaused g) (score g) (speed g) (gameStarted g)).
Definition setIsPaused (f : bool -> bool) : M unit :=
  update (fun g => mkGame (snake g) (food g) (direction g) (gameOver g)
                          (f (isPaused g)) (score g) (speed g) (gameStarted g)).
Definition setScore (f : Z -> Z) : M unit :=
  update (fun g => mkGame (snake g) (food g) (direction g) (gameOver g)
                          (isPaused g) (f (score g)) (speed g) (gameStarted g)).
Definition setSpeed (f : Z -> Z) : M unit :=
  update (fun g => mkGame (snake g) (food g) (direction g) (gameOver g)
                          (isPaused g) (score g) (f (speed g)) (gameStarted g)).
Definition setGameStarted (b : bool) : M unit :=
  update (fun g => mkGame (snake g) (food g) (direction g) (gameOver g)
                          (isPaused g) (score g) (speed g) b).

(** [setSnake (prevSnake => ...)]: the updater is handed the pending
    snake and may itself call setters before it returns the new one.  An
    updater that throws is run again by React while it renders, against
    other random values: the embedding stops there. *)
Definition setSnakeWith (updater : list Cell -> M (list Cell)) : M unit :=
  fun w =>
    match updater (snake (state w)) w with
    | Some (Returned s, w') => setSnake s w'
    | Some (Thrown _, _) => None
    | None => None
    end.

Definition readDirectionRef : M Direction :=
  fun w => Some (Returned (directionRef w), w).
Definition writeDirectionRef (d : Direction) : M unit :=
  fun w => Some (Returned tt, mkWorld (state w) d (random w) (toasts w) (stack w)).

Definition toast (t : Toast) : M unit :=
  fun w => Some (Returned tt,
                 mkWorld (state w) (directionRef w) (random w) (toasts w ++ [t]) (stack w)).

(** A callback of the render whose snapshot is [state w], run on [w].  A
    callback that throws has ended early; what it had queued is applied
    all the same. *)
Definition dispatch (callback : Game -> M unit) (w : World) : option World :=
  match callback (state w) w with
  | Some (_, w') => Some w'
  | None => None
  end.

(** ** placeFood *)

(** [segment.x === c.x && segment.y === c.y] *)
Definition same_cell (c segment : Cell) : bool :=
  (x segment =? x c) && (y segment =? y c).

(** The cell of one attempt: [Math.floor (Math.random () * GRID_SIZE)]
    twice, [x] first. *)
Definition sampled (rx ry : Double) : Cell :=
  {| x := Math_floor (times rx GRID_SIZE);
     y := Math_floor (times ry GRID_SIZE) |}.

(** The recursion of [placeFood] over the values [Math.random] returns,
    with [room] calls left on the stack: the call that no longer fits
    throws.  [None]: the listed values were used up first. *)
Fixpoint placeFood_draws (room : nat) (snake : list Cell) (rs : list Double)
  : option (Completion Cell * list Double) :=
  match room with
  | O => Some (Thrown RangeError, rs)
  | S room' =>
      match rs with
      | rx :: ry :: rest =>
          let newFood := sampled rx ry in
          if existsb (same_cell newFood) snake
          then placeFood_draws room' snake rest
          else Some (Returned newFood, rest)
      | _ => None
      end
  end.

(** [placeFood] as created by the render with snapshot [g]: its [snake]
    is the one of that snapshot ([useCallback (..., [snake])]). *)
Definition placeFood (g : Game) : M unit :=
  fun w =>
    match placeFood_draws (stack w) (snake g) (random w) with
    | Some (Returned newFood, rest) =>
        setFood newFood (mkWorld (state w) (directionRef w) rest (toasts w) (stack w))
    | Some (Thrown e, rest) =>
        Some (Thrown e, mkWorld (state w) (directionRef w) rest (toasts w) (stack w))
    | None => None
    end.

(** ** Callbacks *)

(** [setIsPaused (prev => !prev)] *)
Definition togglePause (_ : Game) : M unit :=
  setIsPaused negb.

(** The [keydown] listener; [key] is [e.key].  It is created once
    ([useCallback (..., [])]) and reads no state cell. *)
Definition handleKeyDown (key : string) (g : Game) : M unit :=
  currentDir <- readDirectionRef ;;
  if String.eqb key "ArrowUp" then
    if negb (Direction_eqb currentDir DOWN)
    then setDirection UP ;; writeDirectionRef UP
    else ret tt
  else if String.eqb key "ArrowDown" then
    if negb (Direction_eqb currentDir UP)
    then setDirection DOWN ;; writeDirectionRef DOWN
    else ret tt
  else if String.eqb key "ArrowLeft" then
    if negb (Direction_eqb currentDir RIGHT)
    then setDirection LEFT ;; writeDirectionRef LEFT
    else ret tt
  else if String.eqb key "ArrowRight" then
    if negb (Direction_eqb currentDir LEFT)
    then setDirection RIGHT ;; writeDirectionRef RIGHT
    else ret tt
  else if String.eqb key " " then
    togglePause g
  else ret tt.

(** The on-screen arrows. *)
Definition handleDirectionButton (newDirection : Direction) (_ : Game) : M unit :=
  currentDir <- readDirectionRef ;;
  if (Direction_eqb newDirection UP && negb (Direction_eqb currentDir DOWN))
     || (Direction_eqb newDirection DOWN && negb (Direction_eqb currentDir UP))
     || (Direction_eqb newDirection LEFT && negb (Direction_eqb currentDir RIGHT))
     || (Direction_eqb newDirection RIGHT && negb (Direction_eqb currentDir LEFT))
  then setDirection newDirection ;; writeDirectionRef newDirection
  else ret tt.

(** The [switch (directionRef.current)] that moves the copied head. *)
Definition advance (d : Direction) (head : Cell) : Cell :=
  match d with
  | UP => {| x := x head; y := y head - 1 |}
  | DOWN => {| x := x head; y := y head + 1 |}
  | LEFT => {| x := x head - 1; y := y head |}
  | RIGHT => {| x := x head + 1; y := y head |}
  end.

(** [Array.prototype.pop], for its effect on the array. *)
Definition pop (l : list Cell) : list Cell := removelast l.

(** One tick.  [gameOver], [isPaused], [gameStarted], [food], [score] and
    the [snake] inside [placeFood] are those of the snapshot [g];
    [prevSnake] is the pending snake.  On an empty [prevSnake] the copied
    head has no coordinates, every test of the updater is false and the
    [pop] empties the new array again. *)
Definition moveSnake (g : Game) : M unit :=
  if gameOver g || isPaused g || negb (gameStarted g) then ret tt
  else
    setSnakeWith (fun prevSnake =>
      match prevSnake with
      | [] => ret []
      | first :: _ =>
          currentDir <- readDirectionRef ;;
          let head := advance currentDir first in
          if (x head <? 0) || (x head >=? GRID_SIZE)
             || (y head <? 0) || (y head >=? GRID_SIZE)
             || existsb (same_cell head) prevSnake
          then
            setGameOver true ;;
            toast (GameOverToast (score g)) ;;
            ret prevSnake
          else
            let newSnake := head :: prevSnake in
            if (x head =? x (food g)) && (y head =? y (food g))
            then
              setScore (fun prev => prev + 10) ;;
              placeFood g ;;
              setSpeed (fun prev => Z.max (prev - SPEED_INCREASE) 50) ;;
              ret newSnake
            else
              ret (pop newSnake)
      end).

(** [startGame] of the render with snapshot [g]. *)
Definition startGame (g : Game) : M unit :=
  setSnake [ {| x := 8; y := 8 |} ] ;;
  writeDirectionRef RIGHT ;;
  setDirection RIGHT ;;
  setGameOver false ;;
  setScore (fun _ => 0) ;;
  setSpeed (fun _ => INITIAL_SPEED) ;;
  placeFood g ;;
  setGameStarted true ;;
  setIsPaused (fun _ => false).

(** ** The component as a transition system *)

(** What can reach the callbacks: the game-loop timer, a key press, and
    the buttons of the page. *)
Inductive Event : Type :=
| Timer
| KeyDown (key : string)
| ArrowButton (d : Direction)
| HeaderPauseButton
| MobilePauseButton
| StartButton.

(** The timer is armed by the game-loop effect only in a running session;
    the header pause button is rendered under [gameStarted && !gameOver]
    and the start button under [gameOver || !gameStarted]; the listener
    and the mobile controls are always there. *)
Definition enabled (e : Event) (g : Game) : bool :=
  match e with
  | Timer => negb (negb (gameStarted g) || isPaused g || gameOver g)
  | HeaderPauseButton => gameStarted g && negb (gameOver g)
  | StartButton => gameOver g || negb (gameStarted g)
  | KeyDown _ | ArrowButton _ | MobilePauseButton => true
  end.

Definition callback (e : Event) : Game -> M unit :=
  match e with
  | Timer => moveSnake
  | KeyDown key => handleKeyDown key
  | ArrowButton d => handleDirectionButton d
  | HeaderPauseButton | MobilePauseButton => togglePause
  | StartButton => startGame
  end.

Definition step (w : World) (e : Event) : option World :=
  if enabled e (state w) then dispatch (callback e) w else None.

Fixpoint run (w : World) (es : list Event) : option World :=
  match es with
  | [] => Some w
  | e :: es' =>
      match step w e with
      | Some w' => run w' es'
      | None => None
      end
  end.

(** The first render: the initial values of the [useState] and [useRef]
    hooks; [rs] is what [Math.random] will return and [room] the room
    on the call stack. *)
Definition initial (room : nat) (rs : list Double) : World :=
  {| state := {| snake := [ {| x := 8; y := 8 |} ];
                 food := {| x := 5; y := 5 |};
                 direction := RIGHT;
                 gameOver := false;
                 isPaused := false;
                 score := 0;
                 speed := INITIAL_SPEED;
                 gameStarted := false |};
     directionRef := RIGHT;
     random := rs;
     toasts := [];
     stack := room |}.

Inductive reachable : World -> Prop :=
| reachable_initial : forall room rs,
    Forall random_ok rs -> reachable (initial room rs)
| reachable_step : forall w e w',
    reachable w -> step w e = Some w' -> reachable w'.

(** ** Vocabulary of the statements *)

Definition in_grid (c : Cell) : Prop :=
  0 <= x c < GRID_SIZE /\ 0 <= y c < GRID_SIZE.

Definition running (g : Game) : Prop :=
  gameStarted g = true /\ isPaused g = false /\ gameOver g = false.

(** The reversal the guards of both direction handlers test for. *)
Definition reverse (d : Direction) : Direction :=
  match d with
  | UP => DOWN
  | DOWN => UP
  | LEFT => RIGHT
  | RIGHT => LEFT
  end.

(** Some cell of the grid is not covered by the snake. *)
Definition leaves_room (s : list Cell) : Prop :=
  exists c, in_grid c /\ existsb (same_cell c) s = false.

(** [resamples s n rs c rest]: of the attempts made on the values [rs],
    the [n]-th is the first whose cell is off [s]; that cell is [c], and
    [rest] are the values after it. *)
Inductive resamples (s : list Cell) : nat -> list Double -> Cell -> list Double -> Prop :=
| resamples_commit : forall rx ry rest,
    ~ In (sampled rx ry) s ->
    resamples s 1 (rx :: ry :: rest) (sampled rx ry) rest
| resamples_retry : forall n rx ry rs c rest,
    In (sampled rx ry) s ->
    resamples s n rs c rest ->
    resamples s (S n) (rx :: ry :: rs) c rest.

(** The first [n] values of an unending source of random numbers. *)
Definition prefix (source : nat -> Double) (n : nat) : list Double :=
  map source (seq 0 n).

(** The invariant of the snake. *)
Definition snake_ok (g : Game) : Prop :=
  snake g <> [] /\ Forall in_grid (snake g).

(** The cell of the [k]-th attempt of [placeFood] on an unending source
    of random values. *)
Definition attempt (source : nat -> Double) (k : nat) : Cell :=
  sampled (source (2 * k)%nat) (source (2 * k + 1)%nat).

(** The key that asks for a direction. *)
Definition arrow_key (d : Direction) : string :=
  match d with
  | UP => "ArrowUp"
  | DOWN => "ArrowDown"
  | LEFT => "ArrowLeft"
  | RIGHT => "ArrowRight"
  end.

(** [w] after an accepted request for [d]. *)
Definition turned (d : Direction) (w : World) : World :=
  {| state := {| snake := snake (state w);
                 food := food (state w);
                 direction := d;
                 gameOver := gameOver (state w);
                 isPaused := isPaused (state w);
                 score := score (state w);
                 speed := speed (state w);
                 gameStarted := gameStarted (state w) |};
     directionRef := d;
     random := random w;
     toasts := toasts w;
     stack := stack w |}.

(** [w] with the pause flag flipped. *)
Definition flipped (w : World) : World :=
  {| state := {| snake := snake (state w);
                 food := food (state w);
                 direction := direction (state w);
                 gameOver := gameOver (state w);
                 isPaused := negb (isPaused (state w));
                 score := score (state w);
                 speed := speed (state w);
                 gameStarted := gameStarted (state w) |};
     directionRef := directionRef w;
     random := random w;
     toasts := toasts w;
     stack := stack w |}.

(** [heading w h]: [w] is reachable and [h] is the direction of the last
    move the snake has made in the current game, RIGHT if it has made
    none. *)
Inductive heading : World -> Direction -> Prop :=
| heading_first : forall room rs,
    Forall random_ok rs -> heading (initial room rs) RIGHT
| heading_move : forall w w' h,
    heading w h -> step w Timer = Some w' -> gameOver (state w') = false ->
    heading w' (directionRef w)
| heading_crash : forall w w' h,
    heading w h -> step w Timer = Some w' -> gameOver (state w') = true ->
    heading w' h
| heading_start : forall w w' h,
    heading w h -> step w StartButton = Some w' -> heading w' RIGHT
| heading_input : forall w w' h e,
    heading w h -> e <> Timer -> e <> StartButton -> step w e = Some w' ->
    heading w' h.

(** ** The outcomes of an event *)

(** [w] after [startGame] has committed [newFood] and left [rest] of the
    random values. *)
Definition restarted (newFood : Cell) (rest : list Double) (w : World) : World :=
  {| state := {| snake := [ {| x := 8; y := 8 |} ];
                 food := newFood;
                 direction := RIGHT;
                 gameOver := false;
                 isPaused := false;
                 score := 0;
                 speed := INITIAL_SPEED;
                 gameStarted := true |};
     directionRef := RIGHT;
     random := rest;
     toasts := toasts w;
     stack := stack w |}.

(** [w] after a [startGame] that [placeFood] has ended with an exception:
    the setters after it have not run. *)
Definition stalled (rest : list Double) (w : World) : World :=
  {| state := {| snake := [ {| x := 8; y := 8 |} ];
                 food := food (state w);
                 direction := RIGHT;
                 gameOver := false;
                 isPaused := isPaused (state w);
                 score := 0;
                 speed := INITIAL_SPEED;
                 gameStarted := gameStarted (state w) |};
     directionRef := RIGHT;
     random := rest;
     toasts := toasts w;
     stack := stack w |}.

(** [w] after the tick that ends the game. *)
Definition crashed (w : World) : World :=
  {| state := {| snake := snake (state w);
                 food := food (state w);
                 direction := direction (state w);
                 gameOver := true;
                 isPaused := isPaused (state w);
                 score := score (state w);
                 speed := speed (state w);
                 gameStarted := gameStarted (state w) |};
     directionRef := directionRef w;
     random := random w;
     toasts := toasts w ++ [GameOverToast (score (state w))];
     stack := stack w |}.

(** [w] after a tick that has eaten: [head] is the new first segment. *)
Definition grown (head newFood : Cell) (rest : list Double) (w : World) : World :=
  {| state := {| snake := head :: snake (state w);
                 food := newFood;
                 direction := direction (state w);
                 gameOver := gameOver (state w);
                 isPaused := isPaused (state w);
                 score := score (state w) + 10;
                 speed := Z.max (speed (state w) - SPEED_INCREASE) 50;
                 gameStarted := gameStarted (state w) |};
     directionRef := directionRef w;
     random := rest;
     toasts := toasts w;
     stack := stack w |}.

(** [w] after a tick that has only moved the snake. *)
Definition moved (head : Cell) (w : World) : World :=
  {| state := {| snake := head :: removelast (snake (state w));
                 food := food (state w);
                 direction := direction (state w);
                 gameOver := gameOver (state w);
                 isPaused := isPaused (state w);
                 score := score (state w);
                 speed := speed (state w);
                 gameStarted := gameStarted (state w) |};
     directionRef := directionRef w;
     random := random w;
     toasts := toasts w;
     stack := stack w |}.

(** What an event can make of [w]: the cases of the callbacks. *)
Inductive outcome (w : World) : World -> Prop :=
| outcome_same : outcome w w
| outcome_turned : forall d,
    d <> reverse (directionRef w) -> outcome w (turned d w)
| outcome_flipped : outcome w (flipped w)
| outcome_restarted : forall newFood rest,
    placeFood_draws (stack w) (snake (state w)) (random w)
      = Some (Returned newFood, rest) ->
    outcome w (restarted newFood rest w)
| outcome_stalled : forall e rest,
    placeFood_draws (stack w) (snake (state w)) (random w)
      = Some (Thrown e, rest) ->
    outcome w (stalled rest w)
| outcome_crashed : forall first body,
    running (state w) ->
    snake (state w) = first :: body ->
    ~ in_grid (advance (directionRef w) first)
      \/ In (advance (directionRef w) first) (snake (state w)) ->
    outcome w (crashed w)
| outcome_grown : forall first body newFood rest,
    running (state w) ->
    snake (state w) = first :: body ->
    in_grid (advance (directionRef w) first) ->
    ~ In (advance (directionRef w) first) (snake (state w)) ->
    advance (directionRef w) first = food (state w) ->
    placeFood_draws (stack w) (snake (state w)) (random w)
      = Some (Returned newFood, rest) ->
    outcome w (grown (advance (directionRef w) first) newFood rest w)
| outcome_moved : forall first body,
    running (state w) ->
    snake (state w) = first :: body ->
    in_grid (advance (directionRef w) first) ->
    ~ In (advance (directionRef w) first) (snake (state w)) ->
    advance (directionRef w) first <> food (state w) ->
    outcome w (moved (advance (directionRef w) first) w).

(** ** Shape of the snake *)

(** Two cells that share a side. *)
Definition adjacent (a b : Cell) : Prop :=
  Z.abs (x a - x b) + Z.abs (y a - y b) = 1.

(** Each segment shares a side with the next one. *)
Fixpoint chain (s : list Cell) : Prop :=
  match s with
  | a :: (b :: _) as tail => adjacent a b /\ chain tail
  | _ => True
  end.

(** The cells of the grid. *)
Definition all_cells : list Cell :=
  flat_map (fun cx => map (fun cy => {| x := Z.of_nat cx; y := Z.of_nat cy |})
                          (seq 0 (Z.to_nat GRID_SIZE)))
           (seq 0 (Z.to_nat GRID_SIZE)).

(** Number of segments, as the score counts them. *)
Definition segments (g : Game) : Z := Z.of_nat (List.length (snake g)).

(** ** The game loop and the page *)

(** The game-loop effect: the delay of the timeout it arms, if it arms
    one. *)
Definition gameLoop (g : Game) : option Z :=
  if negb (gameStarted g) || isPaused g || gameOver g then None
  else Some (speed g).

(** The overlay with the start button: [(gameOver || !gameStarted) && ...]. *)
Definition startOverlay (g : Game) : bool :=
  gameOver g || negb (gameStarted g).

(** The overlay reading PAUSED: [isPaused && gameStarted && !gameOver && ...]. *)
Definition pauseOverlay (g : Game) : bool :=
  isPaused g && gameStarted g && negb (gameOver g).

(** The pause button of the header: [gameStarted && !gameOver && ...]. *)
Definition headerPauseButton (g : Game) : bool :=
  gameStarted g && negb (gameOver g).

(** An absolutely positioned square of the board. *)
Record Box : Type := mkBox { left : Z; top : Z; width : Z; height : Z }.

(** Side of the board: [GRID_SIZE * CELL_SIZE] for width and height. *)
Definition board : Z := GRID_SIZE * CELL_SIZE.

(** The [style] of a snake segment. *)
Definition segmentBox (segment : Cell) : Box :=
  {| left := x segment * CELL_SIZE + 1;
     top := y segment * CELL_SIZE + 1;
     width := CELL_SIZE - 2;
     height := CELL_SIZE - 2 |}.

(** The [style] of the food. *)
Definition foodBox (f : Cell) : Box :=
  {| left := x f * CELL_SIZE + 3;
     top := y f * CELL_SIZE + 3;
     width := CELL_SIZE - 6;
     height := CELL_SIZE - 6 |}.

(** The box lies on the board. *)
Definition on_board (b : Box) : Prop :=
  0 <= left b /\ left b + width b <= board /\ 0 <= top b /\ top b + height b <= board.

(** Two boxes share no point. *)
Definition apart (a b : Box) : Prop :=
  left a + width a <= left b \/ left b + width b <= left a
  \/ top a + height a <= top b \/ top b + height b <= top a.

(** A whole number as a template literal prints it. *)
Definition number_string (n : Z) : string :=
  NilZero.string_of_int (Z.to_int n).

(** The React key of a segment: [`${segment.x}-${segment.y}`]. *)
Definition segmentKey (segment : Cell) : string :=
  number_string (x segment) ++ "-" ++ number_string (y segment).

(** Over [cells], equal keys are keys of the same cell. *)
Definition keys_tell_apart (cells : list Cell) : bool :=
  forallb (fun a =>
    forallb (fun b =>
      implb (String.eqb (segmentKey a) (segmentKey b)) (same_cell a b)) cells) cells.

(** ** Sessions and sources used as instances *)

(** Room on the call stack of the order a browser gives. *)
Definition deep : nat := 80 * 100.

(** A running session with the given snake, food, pending direction,
    score and random values, at the initial speed. *)
Definition session (s : list Cell) (f : Cell) (d : Direction) (sc : Z)
    (rs : list Double) : World :=
  {| state := {| snake := s; food := f; direction := d; gameOver := false;
                 isPaused := false; score := sc; speed := INITIAL_SPEED;
                 gameStarted := true |};
     directionRef := d; random := rs; toasts := []; stack := deep |}.

(** The session after the start button and one tick onto food at (9,8),
    with the values 0.45, 0.4, 0.25, 0.25 of [Math.random]. *)
Definition two_segments : World :=
  {| state := {| snake := [mkCell 9 8; mkCell 8 8]; food := mkCell 5 5;
                 direction := RIGHT; gameOver := false; isPaused := false;
                 score := 10; speed := 145; gameStarted := true |};
     directionRef := RIGHT; random := []; toasts := []; stack := deep |}.

(** The same session after ArrowUp and ArrowLeft. *)
Definition about_to_reverse : World := turned LEFT (turned UP two_segments).

(** And after the tick that follows. *)
Definition after_reversal : World := crashed about_to_reverse.

(** The first attempt of this source lands on (8,8), the later ones on
    (5,5). *)
Definition second_try_source : nat -> Double :=
  fun i => if (i <? 2)%nat then d0_4 else d0_25.

(** A double in the [n]-th twentieth of [0, 1). *)
Definition within (n : Z) : Double :=
  {| mantissa := (512 * n + 256) / 10; exponent := -10 |}.

(** A snake that winds through the whole grid but for the cell (0,0):
    along row 0 from (1,0) to (19,0), back along row 1 to (0,1), along
    row 2, and so on. *)
Definition all_but_corner : list Cell :=
  tl (flat_map (fun cy =>
                  map (fun cx => {| x := Z.of_nat cx; y := Z.of_nat cy |})
                      (if Nat.even cy then seq 0 (Z.to_nat GRID_SIZE)
                       else rev (seq 0 (Z.to_nat GRID_SIZE))))
               (seq 0 (Z.to_nat GRID_SIZE))).

(** No cell of the list comes twice. *)
Fixpoint distinct (s : list Cell) : bool :=
  match s with
  | [] => true
  | a :: tail => negb (existsb (same_cell a) tail) && distinct tail
  end.

(** A source that goes round five values; its attempts land on (9,8),
    (5,8), (9,9), (8,5) and (8,9) in turn. *)
Definition round_source : nat -> Double :=
  fun i =>
    match (i mod 5)%nat with
    | 0%nat => d0_45
    | 1%nat => d0_4
    | 2%nat => d0_25
    | 3%nat => d0_4
    | _ => d0_45
    end.

(** ** Checking [times] against the library's double product *)

Definition to_spec_float (d : Double) : spec_float :=
  match mantissa d with
  | Zpos m => S754_finite false m (exponent d)
  | _ => S754_zero false
  end.

(** The same number, mantissa and exponent apart. *)
Definition same_double (f : spec_float) (d : Double) : bool :=
  match f with
  | S754_zero _ => mantissa d =? 0
  | S754_finite false m e =>
      let low := Z.min e (exponent d) in
      Zpos m * 2 ^ (e - low) =? mantissa d * 2 ^ (exponent d - low)
  | _ => false
  end.

(** [times a 20] against [a * 20] as the library multiplies doubles. *)
Definition times_agrees (a : Double) : bool :=
  same_double (SFmul 53 1024 (to_spec_float a) (S754_finite false 5 2))
              (times a GRID_SIZE).

(** Mantissas of all sizes: a linear congruential sequence cut to 53
    bits. *)
Fixpoint mantissas (n : nat) (seed : Z) : list Z :=
  match n with
  | O => []
  | S n' =>
      let seed' := (seed * 6364136223846793005 + 1442695040888963407) mod 2 ^ 64 in
      seed' / 2 ^ 11 :: mantissas n' seed'
  end.

Definition checked_doubles : list Double :=
  flat_map (fun m => map (mkDouble m) [-53; -54; -55; -60; -1074])
           ([0; 1; 3; 2 ^ 52; 2 ^ 53 - 1; 8106479329266892; 8556839292003942]
            ++ mantissas 200 42).

(** ** Proof tools *)

(** Unfold the setters of a callback, leaving arithmetic and list tests folded. *)
Ltac simpl_callback :=
  cbn -[advance pop removelast existsb placeFood_draws deep
        Z.ltb Z.geb Z.eqb Z.max Z.add Z.sub times sampled Math_floor].

Ltac enter_tick w Hrun Hsnake :=
  destruct w as [[s f d go ip sc sp gs] dref rs ts room];
  destruct Hrun as (Hgs & Hip & Hgo); cbn in Hgs, Hip, Hgo, Hsnake; subst;
  unfold dispatch, moveSnake, setSnakeWith; simpl_callback.

(** Evaluate a run and hand its outcome to the goal. *)
Ltac exists_outcome t :=
  let r := eval vm_compute in t in
  match r with Some ?w => exists w end.

(** Split an outcome into the cases of the callbacks. *)
Ltac outcome_cases Hout :=
  destruct Hout as [ | d Hturn | | newFood rest Hplace | err rest Hplace
                   | first body Hrun Hsnake Hhit
                   | first body newFood rest Hrun Hsnake Hgrid Hself Hfood Hplace
                   | first body Hrun Hsnake Hgrid Hself Hfood ];
  cbn [turned flipped restarted stalled crashed grown moved state directionRef
       random toasts stack snake food direction gameOver isPaused score speed
       gameStarted] in *.

(** * Properties *)

(** ** Doubles *)

(** [times] gives what the library's multiplication of doubles gives, on
    mantissas of every size and exponents down to the smallest. *)
Lemma times_agrees_with_library :
  forallb times_agrees checked_doubles = true.
Proof. vm_compute. reflexivity. Qed.

(** [d0_45] and [d0_4] have 53-bit mantissas and lie within half a unit
    of the last place of 9/20 and 2/5; [d0_25] is 1/4. *)
Lemma literals_are_nearest :
  (2 ^ 52 <= mantissa d0_45 < 2 ^ 53
   /\ 2 * Z.abs (20 * mantissa d0_45 - 9 * 2 ^ 54) <= 20)
  /\ (2 ^ 52 <= mantissa d0_4 < 2 ^ 53
      /\ 2 * Z.abs (5 * mantissa d0_4 - 2 * 2 ^ 54) <= 5)
  /\ 4 * mantissa d0_25 = 2 ^ 2.
Proof. vm_compute. intuition discriminate. Qed.

(** Where the rounding of the product decides the cell: the doubles
    just below 0.45 and 0.95 give 9 and 19, as the product rounds up to
    the whole number. *)
Lemma product_rounds_before_floor :
  Math_floor (times {| mantissa := 8106479329266892; exponent := -54 |} GRID_SIZE) = 9
  /\ Math_floor (times {| mantissa := 8556839292003942; exponent := -53 |} GRID_SIZE) = 19
  /\ Math_floor (times d0_45 GRID_SIZE) = 9
  /\ Math_floor (times d0_4 GRID_SIZE) = 8
  /\ Math_floor (times d0_25 GRID_SIZE) = 5.
Proof. vm_compute. repeat split. Qed.

Lemma nearest_even_bounds (a b : Z) :
  0 <= a -> 0 < b ->
  0 <= nearest_even a b /\ 2 * (nearest_even a b * b) <= 2 * a + b.
Proof.
  intros Ha Hb. unfold nearest_even.
  pose proof (Z.div_mod a b ltac:(lia)) as Hdiv.
  pose proof (Z.mod_pos_bound a b Hb) as Hmod.
  assert (Hq : 0 <= a / b) by (apply Z.div_pos; lia).
  destruct (2 * (a mod b) ?= b) eqn:Hcmp.
  - apply Z.compare_eq in Hcmp. destruct (Z.even (a / b)); nia.
  - nia.
  - apply Z.compare_gt_iff in Hcmp. nia.
Qed.

(** The product of a double below 1 by [GRID_SIZE], rounded, is still
    below [GRID_SIZE]: its floor is a coordinate of the grid. *)
Lemma floor_of_random (r : Double) :
  random_ok r -> 0 <= Math_floor (times r GRID_SIZE) < GRID_SIZE.
Proof.
  destruct r as [m e]. unfold random_ok, Math_floor, times, GRID_SIZE.
  cbn [mantissa exponent]. intros ((Hm0 & Hm53) & (He0 & He1) & Hone).
  set (p := m * 20). set (s := Z.max 0 (Z.log2 p + 1 - 53)).
  assert (Hs0 : 0 <= s) by (unfold s; lia).
  assert (Hs5 : s <= 5).
  { unfold s. destruct (Z.eq_dec p 0) as [-> | Hp]; [cbn; lia |].
    assert (Hlog : Z.log2 p < 58).
    { apply Z.log2_lt_pow2; [lia |].
      change (2 ^ 58) with (2 ^ 53 * 32). lia. }
    lia. }
  assert (Hpow_s : 0 < 2 ^ s <= 32).
  { split; [apply Z.pow_pos_nonneg; lia |].
    change 32 with (2 ^ 5). apply Z.pow_le_mono_r; lia. }
  destruct (nearest_even_bounds p (2 ^ s) ltac:(lia) ltac:(lia)) as [Hn0 Hn].
  set (n := nearest_even p (2 ^ s)) in *.
  assert (Hes : e + s < 0).
  { destruct (Z.eq_dec s 0) as [-> | Hs]; [lia |].
    assert (Hp53 : 2 ^ 53 <= p).
    { assert (Hp : 0 < p).
      { destruct (Z.eq_dec p 0) as [Hz | Hz]; [| lia].
        unfold s in Hs. rewrite Hz in Hs. cbn in Hs. lia. }
      pose proof (Z.log2_spec p Hp) as [Hlow _].
      apply Z.le_trans with (2 ^ Z.log2 p); [| exact Hlow].
      apply Z.pow_le_mono_r; lia. }
    assert (Hlt : 2 ^ 48 < 2 ^ (- e)).
    { change (2 ^ 53) with (2 ^ 48 * 32) in Hp53. lia. }
    apply Z.pow_lt_mono_r_iff in Hlt; lia. }
  replace (0 <=? e + s) with false by (symmetry; apply Z.leb_gt; lia).
  assert (Hsplit : 2 ^ (- e) = 2 ^ s * 2 ^ (- (e + s))).
  { rewrite <- Z.pow_add_r by lia. f_equal. lia. }
  assert (Hpos : 0 < 2 ^ (- (e + s))) by (apply Z.pow_pos_nonneg; lia).
  split.
  - apply Z.div_pos; lia.
  - apply Z.div_lt_upper_bound; [exact Hpos |].
    rewrite Hsplit in Hone. nia.
Qed.

Lemma sampled_in_grid (rx ry : Double) :
  random_ok rx -> random_ok ry -> in_grid (sampled rx ry).
Proof.
  intros Hx Hy. split; cbn [sampled x y]; now apply floor_of_random.
Qed.

(** ** Cells and the grid test *)

Lemma same_cell_eq (c segment : Cell) :
  same_cell c segment = true <-> segment = c.
Proof.
  destruct c as [cx cy], segment as [sx sy]; unfold same_cell; cbn.
  rewrite andb_true_iff, !Z.eqb_eq.
  split; [intros [-> ->]; reflexivity | intros E; injection E; auto].
Qed.

Lemma some_same_cell (c : Cell) (s : list Cell) :
  existsb (same_cell c) s = true <-> In c s.
Proof.
  rewrite existsb_exists; split.
  - intros [segment [Hin Hsame]]. apply same_cell_eq in Hsame. now subst.
  - intros Hin. exists c. split; [assumption | now apply same_cell_eq].
Qed.

Lemma none_same_cell (c : Cell) (s : list Cell) :
  existsb (same_cell c) s = false <-> ~ In c s.
Proof.
  rewrite <- some_same_cell. destruct (existsb (same_cell c) s); intuition congruence.
Qed.

(** The four comparisons of the game-over test are the negation of
    [in_grid]. *)
Lemma wall_test (c : Cell) :
  (x c <? 0) || (x c >=? GRID_SIZE) || (y c <? 0) || (y c >=? GRID_SIZE) = false
  <-> in_grid c.
Proof.
  unfold in_grid, GRID_SIZE. rewrite !orb_false_iff, !Z.ltb_ge, !Z.geb_leb, !Z.leb_gt. lia.
Qed.

Lemma wall_test_hit (c : Cell) :
  (x c <? 0) || (x c >=? GRID_SIZE) || (y c <? 0) || (y c >=? GRID_SIZE) = true
  <-> ~ in_grid c.
Proof.
  rewrite <- wall_test.
  destruct ((x c <? 0) || (x c >=? GRID_SIZE) || (y c <? 0) || (y c >=? GRID_SIZE));
    intuition congruence.
Qed.

Lemma food_test (c f : Cell) :
  (x c =? x f) && (y c =? y f) = true <-> c = f.
Proof.
  change ((x c =? x f) && (y c =? y f)) with (same_cell f c). apply same_cell_eq.
Qed.

(** ** The tick *)

(** C1.  A tick of a running session whose new head is off the grid or on
    a segment of the snake sets [gameOver], shows one toast carrying the
    score of the session and changes nothing else: the snake, in
    particular, stays as it was. *)
Theorem tick_collision_is_game_over :
  forall (w : World) (first : Cell) (body : list Cell),
    running (state w) ->
    snake (state w) = first :: body ->
    ~ in_grid (advance (directionRef w) first)
      \/ In (advance (directionRef w) first) (snake (state w)) ->
    dispatch moveSnake w =
      Some {| state := {| snake := snake (state w);
                          food := food (state w);
                          direction := direction (state w);
                          gameOver := true;
                          isPaused := isPaused (state w);
                          score := score (state w);
                          speed := speed (state w);
                          gameStarted := gameStarted (state w) |};
              directionRef := directionRef w;
              random := random w;
              toasts := toasts w ++ [GameOverToast (score (state w))];
              stack := stack w |}.
Proof.
  intros w first body Hrun Hsnake Hhit.
  enter_tick w Hrun Hsnake. cbn [state snake directionRef food random] in Hhit.
  set (head := advance dref first) in *.
  assert (Htest : (x head <? 0) || (x head >=? GRID_SIZE)
                  || (y head <? 0) || (y head >=? GRID_SIZE)
                  || existsb (same_cell head) (first :: body) = true).
  { apply orb_true_iff. destruct Hhit as [Hwall | Hself].
    - left. now apply wall_test_hit.
    - right. now apply some_same_cell. }
  rewrite Htest. reflexivity.
Qed.

(** ** Food placement *)

Lemma placeFood_draws_sound (s : list Cell) :
  forall room rs newFood rest,
    Forall random_ok rs ->
    placeFood_draws room s rs = Some (Returned newFood, rest) ->
    in_grid newFood /\ ~ In newFood s /\ Forall random_ok rest.
Proof.
  induction room as [| room IH]; intros rs newFood rest Hok Hplace; [discriminate |].
  destruct rs as [| rx [| ry rs]]; try discriminate.
  inversion Hok as [| ? ? Hx Hok']; subst. inversion Hok' as [| ? ? Hy Hrs]; subst.
  cbn [placeFood_draws] in Hplace.
  destruct (existsb (same_cell (sampled rx ry)) s) eqn:Hhit.
  - now apply (IH rs).
  - injection Hplace as <- <-.
    split; [now apply sampled_in_grid |]. split; [now apply none_same_cell | assumption].
Qed.

Lemma placeFood_draws_thrown (s : list Cell) :
  forall room rs e rest,
    Forall random_ok rs ->
    placeFood_draws room s rs = Some (Thrown e, rest) ->
    Forall random_ok rest.
Proof.
  induction room as [| room IH]; intros rs e rest Hok Hplace.
  - injection Hplace as _ <-. exact Hok.
  - destruct rs as [| rx [| ry rs]]; try discriminate.
    inversion Hok as [| ? ? Hx Hok']; subst. inversion Hok' as [| ? ? Hy Hrs]; subst.
    cbn [placeFood_draws] in Hplace.
    destruct (existsb (same_cell (sampled rx ry)) s); [| discriminate].
    now apply (IH rs e).
Qed.


Lemma resamples_placeFood_draws (s : list Cell) :
  forall room rs c rest,
    placeFood_draws room s rs = Some (Returned c, rest) ->
    exists n, (n <= room)%nat /\ resamples s n rs c rest.
Proof.
  induction room as [| room IH]; intros rs c rest Hplace; [discriminate |].
  destruct rs as [| rx [| ry rs]]; try discriminate.
  cbn [placeFood_draws] in Hplace.
  destruct (existsb (same_cell (sampled rx ry)) s) eqn:Hhit.
  - destruct (IH _ _ _ Hplace) as [n [Hn Hres]].
    exists (S n). split; [lia |].
    apply resamples_retry; [now apply some_same_cell | exact Hres].
  - injection Hplace as <- <-. exists 1%nat. split; [lia |].
    apply resamples_commit. now apply none_same_cell.
Qed.




(** C3.  A tick of a running session whose new head is on the grid, off
    the snake and off the food puts the new head in front of the old
    snake without its last segment; the length, the score, the speed,
    the food and everything else stay as they were. *)
Theorem tick_off_food_translates :
  forall (w : World) (first : Cell) (body : list Cell),
    running (state w) ->
    snake (state w) = first :: body ->
    in_grid (advance (directionRef w) first) ->
    ~ In (advance (directionRef w) first) (snake (state w)) ->
    advance (directionRef w) first <> food (state w) ->
    exists w' : World,
      dispatch moveSnake w = Some w'
      /\ w' = {| state := {| snake := advance (directionRef w) first
                                        :: removelast (snake (state w));
                             food := food (state w);
                             direction := direction (state w);
                             gameOver := gameOver (state w);
                             isPaused := isPaused (state w);
                             score := score (state w);
                             speed := speed (state w);
                             gameStarted := gameStarted (state w) |};
                 directionRef := directionRef w;
                 random := random w;
                 toasts := toasts w;
                 stack := stack w |}
      /\ List.length (snake (state w')) = List.length (snake (state w)).
Proof.
  intros w first body Hrun Hsnake Hgrid Hself Hfood.
  enter_tick w Hrun Hsnake. cbn [state snake directionRef food random] in Hgrid, Hself, Hfood |- *.
  set (head := advance dref first) in *.
  apply wall_test in Hgrid. apply none_same_cell in Hself.
  rewrite Hgrid, Hself. cbn [orb].
  assert (Hmiss : (x head =? x f) && (y head =? y f) = false).
  { destruct ((x head =? x f) && (y head =? y f)) eqn:E; [| reflexivity].
    apply food_test in E. contradiction. }
  rewrite Hmiss. unfold pop.
  change (removelast (head :: first :: body)) with (head :: removelast (first :: body)).
  eexists. split; [reflexivity |]. split; [reflexivity |].
  cbn [state snake]. cbn [List.length]. f_equal.
  clear. revert first. induction body as [| b body IH]; intros first; [reflexivity |].
  change (removelast (first :: b :: body)) with (first :: removelast (b :: body)).
  cbn [List.length]. f_equal. apply IH.
Qed.

(** ** The snake of a reachable session *)

Lemma Forall_removelast {A : Type} (P : A -> Prop) (l : list A) :
  Forall P l -> Forall P (removelast l).
Proof.
  induction 1 as [| a l Ha Hl IH]; [constructor |].
  destruct l as [| b l]; [constructor |].
  change (removelast (a :: b :: l)) with (a :: removelast (b :: l)).
  now constructor.
Qed.

Lemma moveSnake_keeps_snake_ok (w w' : World) :
  snake_ok (state w) -> dispatch moveSnake w = Some w' -> snake_ok (state w').
Proof.
  destruct w as [[s f d go ip sc sp gs] dref rs ts room].
  intros [Hne Hin]; cbn [state snake] in Hne, Hin.
  unfold dispatch, moveSnake; cbn [state gameOver isPaused gameStarted].
  destruct (go || ip || negb gs).
  - cbn. intros [= <-]. now split.
  - destruct s as [| first body]; [contradiction |].
    unfold setSnakeWith; simpl_callback.
    set (head := advance dref first).
    destruct ((x head <? 0) || (x head >=? GRID_SIZE)
              || (y head <? 0) || (y head >=? GRID_SIZE)) eqn:Hwall;
      cbn [orb]; [cbn; intros [= <-]; now split |].
    apply wall_test in Hwall.
    destruct (existsb (same_cell head) (first :: body));
      [cbn; intros [= <-]; now split |].
    destruct ((x head =? x f) && (y head =? y f)).
    + unfold placeFood; simpl_callback.
      destruct (placeFood_draws room (first :: body) rs) as [[[newFood | err] rest] |];
        simpl_callback; [| discriminate | discriminate].
      intros [= <-]. split; cbn [state snake]; [discriminate | now constructor].
    + unfold pop.
      change (removelast (head :: first :: body))
        with (head :: removelast (first :: body)).
      simpl_callback. intros [= <-]. split; cbn [state snake]; [discriminate |].
      constructor; [assumption | exact (Forall_removelast in_grid (first :: body) Hin)].
Qed.

Lemma startGame_makes_snake_ok (w w' : World) :
  dispatch startGame w = Some w' -> snake_ok (state w').
Proof.
  unfold dispatch, startGame, placeFood; simpl_callback.
  destruct (placeFood_draws (stack w) (snake (state w)) (random w))
    as [[[newFood | err] rest] |]; simpl_callback; [| | discriminate];
    intros [= <-]; (split; cbn [state snake]; [discriminate |]);
    repeat constructor; cbn; unfold GRID_SIZE; lia.
Qed.

Lemma togglePause_keeps_snake (w w' : World) :
  dispatch togglePause w = Some w' -> snake (state w') = snake (state w).
Proof. cbn. now intros [= <-]. Qed.

Lemma handleDirectionButton_keeps_snake (newDirection : Direction) (w w' : World) :
  dispatch (handleDirectionButton newDirection) w = Some w' ->
  snake (state w') = snake (state w).
Proof.
  unfold dispatch, handleDirectionButton; simpl_callback.
  destruct (_ || _); cbn; now intros [= <-].
Qed.

Lemma handleKeyDown_keeps_snake (key : string) (w w' : World) :
  dispatch (handleKeyDown key) w = Some w' -> snake (state w') = snake (state w).
Proof.
  unfold dispatch, handleKeyDown; simpl_callback.
  repeat match goal with
         | |- context [if ?b then _ else _] => destruct b
         end; cbn; now intros [= <-].
Qed.

Lemma step_keeps_snake_ok (w w' : World) (e : Event) :
  snake_ok (state w) -> step w e = Some w' -> snake_ok (state w').
Proof.
  intros Hok. unfold step. destruct (enabled e (state w)); [| discriminate].
  destruct e; cbn [callback]; intros Hstep.
  - eapply moveSnake_keeps_snake_ok; eassumption.
  - unfold snake_ok. now rewrite (handleKeyDown_keeps_snake _ _ _ Hstep).
  - unfold snake_ok. now rewrite (handleDirectionButton_keeps_snake _ _ _ Hstep).
  - unfold snake_ok. now rewrite (togglePause_keeps_snake _ _ Hstep).
  - unfold snake_ok. now rewrite (togglePause_keeps_snake _ _ Hstep).
  - eapply startGame_makes_snake_ok; eassumption.
Qed.

(** C10.  In every reachable state of the component the snake has a first
    segment, so the head read at the start of a tick exists, and each of
    its segments lies on the grid. *)
Theorem reachable_snake_on_grid :
  forall w : World,
    reachable w ->
    (exists (first : Cell) (body : list Cell), snake (state w) = first :: body)
    /\ (forall segment, In segment (snake (state w)) ->
          0 <= x segment < 20 /\ 0 <= y segment < 20).
Proof.
  intros w Hreach.
  assert (Hok : snake_ok (state w)).
  { induction Hreach as [room rs _ | w e w' _ IH Hstep].
    - split; cbn; [discriminate |]. repeat constructor; cbn; unfold GRID_SIZE; lia.
    - eapply step_keeps_snake_ok; eassumption. }
  destruct Hok as [Hne Hin]. split.
  - destruct (snake (state w)) as [| first body]; [contradiction | eauto].
  - intros segment Hseg. rewrite Forall_forall in Hin. apply (Hin segment Hseg).
Qed.

(** ** Direction requests and pause *)

(** What a direction request does, in any state. *)
Lemma direction_request_result (w : World) (d : Direction) :
  dispatch (handleDirectionButton d) w
    = Some (if Direction_eqb d (reverse (directionRef w)) then w else turned d w)
  /\ dispatch (handleKeyDown (arrow_key d)) w
    = Some (if Direction_eqb d (reverse (directionRef w)) then w else turned d w).
Proof.
  destruct w as [g dref rs ts room].
  split; destruct d, dref; reflexivity.
Qed.

(** C6, as the code has it.  A direction request, from the keyboard or
    from an on-screen arrow, is judged without a look at [gameStarted],
    [isPaused] or [gameOver].  Made while the pending direction is still
    the direction of the snake's last move, it leaves the whole state as
    it is when it asks for the reverse of that direction, and otherwise
    sets the direction cell and [directionRef] to what it asks for, and
    nothing else: in a session that is running, and as well before the
    start, while paused and after the game is over. *)
Theorem direction_request_ignores_session_flags :
  forall (w : World) (h d : Direction),
    heading w h ->
    directionRef w = h ->
    dispatch (handleDirectionButton d) w
      = Some (if Direction_eqb d (reverse h) then w else turned d w)
    /\ dispatch (handleKeyDown (arrow_key d)) w
      = Some (if Direction_eqb d (reverse h) then w else turned d w).
Proof.
  intros w h d _ <-. apply direction_request_result.
Qed.

(** C7, as the code has it.  [togglePause], and with it the space bar,
    flips [isPaused] in every state and touches nothing else; only the
    pause button of the header is tied to a session that is started and
    not over, by being rendered in no other. *)
Theorem togglePause_flips_in_every_state :
  forall w : World,
    dispatch togglePause w = Some (flipped w)
    /\ dispatch (handleKeyDown " ") w = Some (flipped w)
    /\ step w MobilePauseButton = Some (flipped w)
    /\ enabled HeaderPauseButton (state w)
       = gameStarted (state w) && negb (gameOver (state w)).
Proof.
  intros w. repeat split.
Qed.

(** ** Restart *)

(** [startGame] when [placeFood] commits, and when it throws. *)
Lemma startGame_result (w : World) :
  dispatch startGame w =
    match placeFood_draws (stack w) (snake (state w)) (random w) with
    | Some (Returned newFood, rest) => Some (restarted newFood rest w)
    | Some (Thrown _, rest) => Some (stalled rest w)
    | None => None
    end.
Proof.
  unfold dispatch, startGame, placeFood; simpl_callback.
  destruct (placeFood_draws (stack w) (snake (state w)) (random w))
    as [[[newFood | err] rest] |]; reflexivity.
Qed.

(** ** Resampling *)

Lemma prefix_two_more (source : nat -> Double) (n : nat) :
  prefix source (S (S n))
  = source 0%nat :: source 1%nat :: prefix (fun i => source (S (S i))) n.
Proof.
  unfold prefix. cbn [seq map]. do 2 f_equal.
  rewrite <- seq_shift, <- seq_shift, !map_map. reflexivity.
Qed.

Lemma attempt_shift (source : nat -> Double) (k : nat) :
  attempt (fun i => source (S (S i))) k = attempt source (S k).
Proof.
  unfold attempt.
  replace (2 * S k)%nat with (S (S (2 * k))) by lia.
  replace (S (S (2 * k)) + 1)%nat with (S (S (2 * k + 1))) by lia.
  reflexivity.
Qed.

Lemma attempt_in_grid (source : nat -> Double) (k : nat) :
  (forall i, random_ok (source i)) -> in_grid (attempt source k).
Proof.
  intros Hok. apply sampled_in_grid; apply Hok.
Qed.

Section FirstMiss.

(** The snake [placeFood] tests. *)
Variable s : list Cell.

Lemma placeFood_draws_first_room :
  forall (k room : nat) (source : nat -> Double),
    (k < room)%nat ->
    existsb (same_cell (attempt source k)) s = false ->
    exists (j : nat) (rest : list Double),
      (j <= k)%nat
      /\ (forall i, (i < j)%nat -> existsb (same_cell (attempt source i)) s = true)
      /\ existsb (same_cell (attempt source j)) s = false
      /\ placeFood_draws room s (prefix source (2 * S k))
         = Some (Returned (attempt source j), rest).
Proof.
  induction k as [| k IH]; intros room source Hroom Hmiss;
    (destruct room as [| room]; [lia |]).
  - exists 0%nat, []. split; [lia |]. split; [lia |]. split; [assumption |].
    change (2 * 1)%nat with 2%nat. rewrite prefix_two_more.
    cbn [prefix seq map placeFood_draws].
    change (sampled (source 0%nat) (source 1%nat)) with (attempt source 0).
    now rewrite Hmiss.
  - replace (2 * S (S k))%nat with (S (S (2 * S k))) by lia.
    rewrite prefix_two_more. cbn [placeFood_draws].
    change (sampled (source 0%nat) (source 1%nat)) with (attempt source 0).
    destruct (existsb (same_cell (attempt source 0)) s) eqn:Hfirst.
    + rewrite <- attempt_shift in Hmiss.
      destruct (IH room _ ltac:(lia) Hmiss) as (j & rest & Hle & Hbefore & Hj & Hplace).
      exists (S j), rest. rewrite attempt_shift in Hj, Hplace.
      split; [lia |]. split; [| split; assumption].
      intros [| i] Hi; [assumption |].
      rewrite <- attempt_shift. apply Hbefore. lia.
    + eexists 0%nat, _. split; [lia |]. split; [lia |]. split; [assumption | reflexivity].
Qed.

Lemma placeFood_draws_overflow :
  forall (room : nat) (source : nat -> Double),
    (forall i, (i < room)%nat -> existsb (same_cell (attempt source i)) s = true) ->
    forall n, (2 * room <= n)%nat ->
    exists rest : list Double,
      placeFood_draws room s (prefix source n) = Some (Thrown RangeError, rest).
Proof.
  induction room as [| room IH]; intros source Hhit n Hn.
  - eexists. reflexivity.
  - destruct n as [| [| n]]; try lia.
    rewrite prefix_two_more. cbn [placeFood_draws].
    change (sampled (source 0%nat) (source 1%nat)) with (attempt source 0).
    rewrite (Hhit 0%nat) by lia.
    apply IH; [| lia].
    intros i Hi. rewrite attempt_shift. apply Hhit. lia.
Qed.

(** C9, as the code has it.  On a source of random values whose [k]-th
    attempt misses the snake, and with room on the call stack for more
    than [k] nested calls, [placeFood] commits the first attempt that
    misses the snake, a cell of the grid. *)
Theorem placeFood_commits_first_miss :
  forall (source : nat -> Double) (room k : nat),
    (forall i, random_ok (source i)) ->
    (k < room)%nat ->
    ~ In (attempt source k) s ->
    exists (j : nat) (rest : list Double),
      (j <= k)%nat
      /\ (forall i, (i < j)%nat -> In (attempt source i) s)
      /\ placeFood_draws room s (prefix source (2 * S k))
         = Some (Returned (attempt source j), rest)
      /\ in_grid (attempt source j)
      /\ ~ In (attempt source j) s.
Proof.
  intros source room k Hok Hroom Hmiss. apply none_same_cell in Hmiss.
  destruct (placeFood_draws_first_room k room source Hroom Hmiss)
    as (j & rest & Hle & Hbefore & Hj & Hplace).
  exists j, rest. repeat split; try assumption; try apply (attempt_in_grid source j Hok).
  - intros i Hi. apply some_same_cell. now apply Hbefore.
  - now apply none_same_cell.
Qed.

End FirstMiss.

(** ** Instances of the theorems *)

Lemma running_session s f d sc rs : running (state (session s f d sc rs)).
Proof. repeat split. Qed.

Lemma random_ok_d0_25 : random_ok d0_25.
Proof. unfold random_ok; cbn; lia. Qed.

Lemma random_ok_d0_4 : random_ok d0_4.
Proof. unfold random_ok; cbn; lia. Qed.

Lemma random_ok_d0_45 : random_ok d0_45.
Proof. unfold random_ok; cbn; lia. Qed.

Lemma tick_collision_is_game_over_witness :
  ~ in_grid (advance LEFT (mkCell 0 8))
  /\ dispatch moveSnake (session [mkCell 0 8; mkCell 1 8] (mkCell 5 5) LEFT 10 [])
     = Some {| state := {| snake := [mkCell 0 8; mkCell 1 8]; food := mkCell 5 5;
                           direction := LEFT; gameOver := true; isPaused := false;
                           score := 10; speed := 150; gameStarted := true |};
               directionRef := LEFT; random := [];
               toasts := [GameOverToast 10]; stack := deep |}.
Proof.
  assert (Hwall : ~ in_grid (advance LEFT (mkCell 0 8))).
  { unfold in_grid; cbn; lia. }
  split; [exact Hwall |].
  exact (tick_collision_is_game_over
           (session [mkCell 0 8; mkCell 1 8] (mkCell 5 5) LEFT 10 [])
           (mkCell 0 8) [mkCell 1 8]
           (running_session _ _ _ _ _) eq_refl (or_introl Hwall)).
Defined.


Lemma tick_off_food_translates_witness :
  exists w' : World,
    dispatch moveSnake (session [mkCell 8 8] (mkCell 5 5) RIGHT 0 []) = Some w'
    /\ snake (state w') = [mkCell 9 8]
    /\ score (state w') = 0
    /\ speed (state w') = 150
    /\ food (state w') = mkCell 5 5.
Proof.
  destruct (tick_off_food_translates
              (session [mkCell 8 8] (mkCell 5 5) RIGHT 0 []) (mkCell 8 8) [])
    as (w' & Htick & Hw' & _).
  - apply running_session.
  - reflexivity.
  - unfold in_grid, GRID_SIZE; cbn; lia.
  - cbn. intros [H | []]. discriminate H.
  - cbn. discriminate.
  - exists w'. split; [exact Htick |]. subst w'. repeat split.
Defined.

Lemma direction_request_ignores_session_flags_witness :
  isPaused (state (flipped (session [mkCell 8 8] (mkCell 5 5) RIGHT 0 []))) = true
  /\ dispatch (handleDirectionButton UP)
       (flipped (session [mkCell 8 8] (mkCell 5 5) RIGHT 0 []))
     = Some (turned UP (flipped (session [mkCell 8 8] (mkCell 5 5) RIGHT 0 [])))
  /\ dispatch (handleKeyDown "ArrowLeft")
       (flipped (session [mkCell 8 8] (mkCell 5 5) RIGHT 0 []))
     = Some (flipped (session [mkCell 8 8] (mkCell 5 5) RIGHT 0 [])).
Proof.
  assert (Hheading : heading (flipped (session [mkCell 8 8] (mkCell 5 5) RIGHT 0 [])) RIGHT).
  { apply (heading_input (session [mkCell 8 8] (mkCell 5 5) RIGHT 0 []) _ RIGHT
             MobilePauseButton); [| discriminate | discriminate | reflexivity].
    apply (heading_start (initial deep [d0_25; d0_25]) _ RIGHT).
    - apply heading_first. repeat constructor; apply random_ok_d0_25.
    - vm_compute. reflexivity. }
  split; [reflexivity |]. split.
  - exact (proj1 (direction_request_ignores_session_flags _ RIGHT UP Hheading eq_refl)).
  - exact (proj2 (direction_request_ignores_session_flags _ RIGHT LEFT Hheading eq_refl)).
Defined.

Lemma placeFood_commits_first_miss_witness :
  exists rest : list Double,
    placeFood_draws deep [mkCell 8 8] (prefix second_try_source 4)
    = Some (Returned (mkCell 5 5), rest).
Proof.
  destruct (placeFood_commits_first_miss [mkCell 8 8] second_try_source deep 1)
    as (j & rest & Hle & Hbefore & Hplace & _).
  - intros i. unfold second_try_source.
    destruct (i <? 2)%nat; [apply random_ok_d0_4 | apply random_ok_d0_25].
  - unfold deep. lia.
  - intros [H | []]. vm_compute in H. discriminate H.
  - exists rest. destruct j as [| [| j]]; [| exact Hplace | lia].
    vm_compute in Hplace. discriminate Hplace.
Defined.

Lemma reachable_snake_on_grid_witness :
  exists w : World,
    run (initial deep [d0_25; d0_25]) [StartButton; Timer] = Some w
    /\ snake (state w) = [mkCell 9 8]
    /\ forall segment, In segment (snake (state w)) ->
         0 <= x segment < 20 /\ 0 <= y segment < 20.
Proof.
  exists_outcome (run (initial deep [d0_25; d0_25]) [StartButton; Timer]).
  split; [vm_compute; reflexivity |]. split; [reflexivity |].
  apply reachable_snake_on_grid.
  apply (reachable_step (session [mkCell 8 8] (mkCell 5 5) RIGHT 0 []) Timer);
    [apply (reachable_step (initial deep [d0_25; d0_25]) StartButton) |].
  - apply reachable_initial. repeat constructor; apply random_ok_d0_25.
  - vm_compute; reflexivity.
  - vm_compute; reflexivity.
Defined.


(** ** Where the component departs from the specification *)

(** C4.  Two accepted requests between two ticks reverse the snake.  The
    first tick applies RIGHT and takes the head from (8,8) to the food at
    (9,8); ArrowUp and then ArrowLeft are both accepted, each against the
    direction pending when it is pressed; the second tick applies LEFT,
    the reverse of the move just made, and the head runs into the segment
    behind it. *)
Theorem two_turns_between_ticks_reverse_the_snake :
  exists w0 w1 w2 w3 : World,
    step (initial deep [d0_45; d0_4; d0_25; d0_25]) StartButton = Some w0
    /\ directionRef w0 = RIGHT
    /\ step w0 Timer = Some w1
    /\ snake (state w1) = [mkCell 9 8; mkCell 8 8]
    /\ run w1 [KeyDown "ArrowUp"; KeyDown "ArrowLeft"] = Some w2
    /\ running (state w2)
    /\ directionRef w2 = reverse (directionRef w0)
    /\ step w2 Timer = Some w3
    /\ gameOver (state w3) = true
    /\ toasts w3 = [GameOverToast 10].
Proof.
  exists_outcome (run (initial deep [d0_45; d0_4; d0_25; d0_25]) [StartButton]).
  exists_outcome (run (initial deep [d0_45; d0_4; d0_25; d0_25]) [StartButton; Timer]).
  exists_outcome (run (initial deep [d0_45; d0_4; d0_25; d0_25])
                      [StartButton; Timer; KeyDown "ArrowUp"; KeyDown "ArrowLeft"]).
  exists_outcome (run (initial deep [d0_45; d0_4; d0_25; d0_25])
                      [StartButton; Timer; KeyDown "ArrowUp"; KeyDown "ArrowLeft"; Timer]).
  repeat split; vm_compute; reflexivity.
Qed.

(** C5.  [placeFood] tests the snake of the render it was created in.  On
    a tick that eats, the food drawn may be the cell the head has just
    entered; on a restart, it may be (8,8), where the snake is put. *)
Theorem food_placed_under_the_snake :
  (exists w : World,
      run (initial deep [d0_45; d0_4; d0_45; d0_4]) [StartButton; Timer] = Some w
      /\ snake (state w) = [mkCell 9 8; mkCell 8 8]
      /\ score (state w) = 10
      /\ food (state w) = mkCell 9 8
      /\ In (food (state w)) (snake (state w)))
  /\ (exists w : World,
      run (initial deep [d0_25; d0_25; d0_4; d0_4])
          [StartButton; KeyDown "ArrowUp";
           Timer; Timer; Timer; Timer; Timer; Timer; Timer; Timer; Timer;
           StartButton] = Some w
      /\ snake (state w) = [mkCell 8 8]
      /\ food (state w) = mkCell 8 8
      /\ In (food (state w)) (snake (state w))).
Proof.
  split.
  - exists_outcome (run (initial deep [d0_45; d0_4; d0_45; d0_4]) [StartButton; Timer]).
    repeat split; try (vm_compute; reflexivity). now left.
  - exists_outcome
      (run (initial deep [d0_25; d0_25; d0_4; d0_4])
           [StartButton; KeyDown "ArrowUp";
            Timer; Timer; Timer; Timer; Timer; Timer; Timer; Timer; Timer;
            StartButton]).
    repeat split; try (vm_compute; reflexivity). now left.
Qed.

(** C6 as stated fails: before the game is started, and while it is
    paused, a direction request is applied. *)
Lemma direction_request_applied_outside_running :
  (gameStarted (state (initial deep [])) = false
   /\ step (initial deep []) (KeyDown "ArrowUp") = Some (turned UP (initial deep []))
   /\ directionRef (turned UP (initial deep [])) <> directionRef (initial deep []))
  /\ (exists paused : World,
        run (initial deep [d0_25; d0_25]) [StartButton; KeyDown " "] = Some paused
        /\ isPaused (state paused) = true
        /\ step paused (ArrowButton UP) = Some (turned UP paused)
        /\ directionRef (turned UP paused) <> directionRef paused).
Proof.
  split.
  - split; [reflexivity |]. split; [reflexivity | discriminate].
  - exists_outcome (run (initial deep [d0_25; d0_25]) [StartButton; KeyDown " "]).
    split; [vm_compute; reflexivity |]. split; [reflexivity |].
    split; [reflexivity | discriminate].
Qed.

(** C7 as stated fails: before the game is started, and after it is over,
    the space bar and the mobile pause button flip [isPaused]. *)
Lemma pause_flips_outside_session :
  (gameStarted (state (initial deep [])) = false
   /\ step (initial deep []) (KeyDown " ") = Some (flipped (initial deep []))
   /\ isPaused (state (initial deep [])) = false
   /\ isPaused (state (flipped (initial deep []))) = true)
  /\ (exists over : World,
        run (initial deep [d0_25; d0_25])
            [StartButton; KeyDown "ArrowUp";
             Timer; Timer; Timer; Timer; Timer; Timer; Timer; Timer; Timer]
          = Some over
        /\ gameOver (state over) = true
        /\ isPaused (state over) = false
        /\ step over MobilePauseButton = Some (flipped over)
        /\ isPaused (state (flipped over)) = true).
Proof.
  split.
  - repeat split.
  - exists_outcome
      (run (initial deep [d0_25; d0_25])
           [StartButton; KeyDown "ArrowUp";
            Timer; Timer; Timer; Timer; Timer; Timer; Timer; Timer; Timer]).
    split; [vm_compute; reflexivity |]. repeat split.
Qed.

(** C8.  A restart resets the snake, the directions, the score, the
    speed and the flags, but samples the food against the snake of the
    render in which the button was pressed: after a crash at (8,0) the
    values 0.4, 0.4 put the food on (8,8), under the reset snake. *)
Theorem restart_puts_food_under_the_reset_snake :
  exists over w : World,
    run (initial deep [d0_25; d0_25; d0_4; d0_4])
        [StartButton; KeyDown "ArrowUp";
         Timer; Timer; Timer; Timer; Timer; Timer; Timer; Timer; Timer]
      = Some over
    /\ gameOver (state over) = true
    /\ snake (state over) = [mkCell 8 0]
    /\ step over StartButton = Some w
    /\ w = {| state := {| snake := [mkCell 8 8]; food := mkCell 8 8;
                          direction := RIGHT; gameOver := false;
                          isPaused := false; score := 0; speed := 150;
                          gameStarted := true |};
              directionRef := RIGHT; random := [];
              toasts := [GameOverToast 0]; stack := deep |}
    /\ In (food (state w)) (snake (state w)).
Proof.
  exists_outcome
    (run (initial deep [d0_25; d0_25; d0_4; d0_4])
         [StartButton; KeyDown "ArrowUp";
          Timer; Timer; Timer; Timer; Timer; Timer; Timer; Timer; Timer]).
  exists_outcome
    (run (initial deep [d0_25; d0_25; d0_4; d0_4])
         [StartButton; KeyDown "ArrowUp";
          Timer; Timer; Timer; Timer; Timer; Timer; Timer; Timer; Timer;
          StartButton]).
  split; [vm_compute; reflexivity |]. split; [reflexivity |].
  split; [reflexivity |]. split; [vm_compute; reflexivity |].
  split; [vm_compute; reflexivity |]. now left.
Qed.

(** When every attempt that fits on the stack lands on the snake of the
    render, [startGame] ends at its call of [placeFood]: the food and
    the started and paused flags stay as they were. *)
Lemma startGame_stalls_on_overflow (w : World) (source : nat -> Double) (n : nat) :
  random w = prefix source n ->
  (2 * stack w <= n)%nat ->
  (forall i, (i < stack w)%nat -> In (attempt source i) (snake (state w))) ->
  exists rest : list Double, dispatch startGame w = Some (stalled rest w).
Proof.
  intros Hrandom Hn Hhit.
  destruct (placeFood_draws_overflow (snake (state w)) (stack w) source) with (n := n)
    as [rest Hplace]; [| exact Hn |].
  - intros i Hi. apply some_same_cell. now apply Hhit.
  - exists rest. rewrite startGame_result, Hrandom, Hplace. reflexivity.
Qed.

Lemma round_source_ok (i : nat) : random_ok (round_source i).
Proof.
  unfold round_source.
  destruct (i mod 5)%nat as [| [| [| [| [| n]]]]];
    first [apply random_ok_d0_45 | apply random_ok_d0_4 | apply random_ok_d0_25].
Qed.

Lemma round_source_hits (k : nat) :
  existsb (same_cell (attempt round_source k)) all_but_corner = true.
Proof.
  unfold attempt, round_source.
  destruct ((2 * k) mod 5)%nat as [| [| [| [| [| n]]]]];
    destruct ((2 * k + 1) mod 5)%nat as [| [| [| [| [| m]]]]];
    vm_compute; reflexivity.
Qed.

Lemma distinct_sound (s : list Cell) : distinct s = true -> NoDup s.
Proof.
  induction s as [| a tail IH]; cbn [distinct]; intros H; [constructor |].
  apply andb_true_iff in H. destruct H as [Ha Htail].
  apply negb_true_iff in Ha.
  constructor; [now apply none_same_cell | now apply IH].
Qed.

Lemma all_but_corner_is_a_snake :
  Forall in_grid all_but_corner /\ chain all_but_corner /\ NoDup all_but_corner.
Proof.
  split; [| split].
  - apply Forall_forall. intros c Hin. apply wall_test.
    assert (Hall : forallb (fun c => negb ((x c <? 0) || (x c >=? GRID_SIZE)
                                           || (y c <? 0) || (y c >=? GRID_SIZE)))
                           all_but_corner = true) by (vm_compute; reflexivity).
    rewrite forallb_forall in Hall. apply negb_true_iff. now apply Hall.
  - vm_compute. repeat split.
  - apply distinct_sound. vm_compute. reflexivity.
Qed.

(** C9 as stated fails: a snake that winds through 399 cells leaves the
    cell (0,0) free, yet on a source that goes round five values, none
    of which leads there, the recursion uses up the call stack, however
    deep, and ends in an exception without a food committed. *)
Lemma placeFood_can_exhaust_the_stack :
  leaves_room all_but_corner
  /\ List.length all_but_corner = 399%nat
  /\ Forall in_grid all_but_corner /\ chain all_but_corner /\ NoDup all_but_corner
  /\ (forall i, random_ok (round_source i))
  /\ (forall room n, (2 * room <= n)%nat ->
        exists rest : list Double,
          placeFood_draws room all_but_corner (prefix round_source n)
          = Some (Thrown RangeError, rest)).
Proof.
  destruct all_but_corner_is_a_snake as (Hgrid & Hchain & Hdistinct).
  split; [| split; [| split; [exact Hgrid |]]].
  - exists (mkCell 0 0). split; [| vm_compute; reflexivity].
    unfold in_grid, GRID_SIZE; cbn; lia.
  - vm_compute. reflexivity.
  - split; [exact Hchain |]. split; [exact Hdistinct |].
    split; [exact round_source_ok |].
    intros room n Hn. apply placeFood_draws_overflow; [| exact Hn].
    intros i _. apply round_source_hits.
Qed.

(** * Further properties of the component *)

(** ** The cases of an event *)

Lemma request_guard (newDirection currentDir : Direction) :
  (Direction_eqb newDirection UP && negb (Direction_eqb currentDir DOWN))
  || (Direction_eqb newDirection DOWN && negb (Direction_eqb currentDir UP))
  || (Direction_eqb newDirection LEFT && negb (Direction_eqb currentDir RIGHT))
  || (Direction_eqb newDirection RIGHT && negb (Direction_eqb currentDir LEFT)) = true
  <-> newDirection <> reverse currentDir.
Proof.
  destruct newDirection, currentDir; cbn; split; congruence.
Qed.

Lemma moveSnake_cases (w w' : World) :
  running (state w) ->
  dispatch moveSnake w = Some w' ->
  w' = w
  \/ (exists first body,
        snake (state w) = first :: body
        /\ (~ in_grid (advance (directionRef w) first)
            \/ In (advance (directionRef w) first) (snake (state w)))
        /\ w' = crashed w)
  \/ (exists first body newFood rest,
        snake (state w) = first :: body
        /\ in_grid (advance (directionRef w) first)
        /\ ~ In (advance (directionRef w) first) (snake (state w))
        /\ advance (directionRef w) first = food (state w)
        /\ placeFood_draws (stack w) (snake (state w)) (random w)
           = Some (Returned newFood, rest)
        /\ w' = grown (advance (directionRef w) first) newFood rest w)
  \/ (exists first body,
        snake (state w) = first :: body
        /\ in_grid (advance (directionRef w) first)
        /\ ~ In (advance (directionRef w) first) (snake (state w))
        /\ advance (directionRef w) first <> food (state w)
        /\ w' = moved (advance (directionRef w) first) w).
Proof.
  intros Hrun.
  destruct w as [[s f d go ip sc sp gs] dref rs ts room].
  destruct Hrun as (Hgs & Hip & Hgo); cbn in Hgs, Hip, Hgo; subst.
  unfold dispatch, moveSnake, setSnakeWith; simpl_callback.
  destruct s as [| first body]; simpl_callback.
  { intros [= <-]. now left. }
  set (head := advance dref first).
  destruct ((x head <? 0) || (x head >=? GRID_SIZE)
            || (y head <? 0) || (y head >=? GRID_SIZE)) eqn:Hwall; cbn [orb].
  { intros [= <-]. right; left. exists first, body.
    split; [reflexivity |]. split; [| reflexivity].
    left. exact (proj1 (wall_test_hit head) Hwall). }
  destruct (existsb (same_cell head) (first :: body)) eqn:Hself.
  { intros [= <-]. right; left. exists first, body.
    split; [reflexivity |]. split; [| reflexivity].
    right. exact (proj1 (some_same_cell head (first :: body)) Hself). }
  apply wall_test in Hwall. apply none_same_cell in Hself.
  destruct ((x head =? x f) && (y head =? y f)) eqn:Hfood.
  - apply food_test in Hfood. unfold placeFood; simpl_callback.
    destruct (placeFood_draws room (first :: body) rs)
      as [[[newFood | err] rest] |] eqn:Hplace;
      simpl_callback; [| discriminate | discriminate].
    intros [= <-]. right; right; left. exists first, body, newFood, rest.
    split; [reflexivity |]. split; [exact Hwall |]. split; [exact Hself |].
    split; [exact Hfood |]. split; reflexivity.
  - assert (Hmiss : head <> f).
    { intros Heq. apply food_test in Heq. congruence. }
    intros [= <-]. right; right; right. exists first, body.
    split; [reflexivity |]. split; [exact Hwall |]. split; [exact Hself |].
    split; [exact Hmiss | reflexivity].
Qed.

Lemma moveSnake_outcome (w w' : World) :
  running (state w) -> dispatch moveSnake w = Some w' -> outcome w w'.
Proof.
  intros Hrun Htick.
  destruct (moveSnake_cases w w' Hrun Htick)
    as [-> | [(first & body & Hsnake & Hhit & ->)
           | [(first & body & newFood & rest & Hsnake & Hgrid & Hself & Hfood & Hplace & ->)
           | (first & body & Hsnake & Hgrid & Hself & Hfood & ->)]]].
  - apply outcome_same.
  - now apply (outcome_crashed w first body).
  - now apply (outcome_grown w first body).
  - now apply (outcome_moved w first body).
Qed.

Lemma handleDirectionButton_outcome (newDirection : Direction) (w w' : World) :
  dispatch (handleDirectionButton newDirection) w = Some w' -> outcome w w'.
Proof.
  unfold dispatch, handleDirectionButton; simpl_callback.
  destruct (_ || _) eqn:Hguard; cbn; intros [= <-].
  - apply outcome_turned. now apply request_guard.
  - apply outcome_same.
Qed.

Lemma handleKeyDown_outcome (key : string) (w w' : World) :
  dispatch (handleKeyDown key) w = Some w' -> outcome w w'.
Proof.
  unfold dispatch, handleKeyDown; simpl_callback.
  destruct (directionRef w) eqn:Href; cbn [Direction_eqb negb];
    repeat match goal with
           | |- context [if ?b then _ else _] => destruct b
           end; cbn; intros [= <-];
    first [ apply outcome_same
          | apply outcome_flipped
          | apply (outcome_turned w UP); rewrite Href; discriminate
          | apply (outcome_turned w DOWN); rewrite Href; discriminate
          | apply (outcome_turned w LEFT); rewrite Href; discriminate
          | apply (outcome_turned w RIGHT); rewrite Href; discriminate ].
Qed.

Lemma startGame_outcome (w w' : World) :
  dispatch startGame w = Some w' -> outcome w w'.
Proof.
  rewrite startGame_result.
  destruct (placeFood_draws (stack w) (snake (state w)) (random w))
    as [[[newFood | err] rest] |] eqn:Hplace; [| | discriminate]; intros [= <-].
  - now apply outcome_restarted.
  - now apply (outcome_stalled w err).
Qed.

Lemma step_outcome (w w' : World) (e : Event) :
  step w e = Some w' -> outcome w w'.
Proof.
  unfold step. destruct (enabled e (state w)) eqn:Hen; [| discriminate].
  destruct e; cbn [callback].
  - apply moveSnake_outcome. cbn [enabled] in Hen. unfold running.
    destruct (gameStarted (state w)), (isPaused (state w)), (gameOver (state w));
      try discriminate. repeat split.
  - apply handleKeyDown_outcome.
  - apply handleDirectionButton_outcome.
  - cbn. intros [= <-]. apply outcome_flipped.
  - cbn. intros [= <-]. apply outcome_flipped.
  - apply startGame_outcome.
Qed.

(** An invariant of the outcomes that holds at the first render holds in
    every reachable state. *)
Lemma reachable_ind_outcome (P : World -> Prop) :
  (forall room rs, Forall random_ok rs -> P (initial room rs)) ->
  (forall w w', reachable w -> P w -> outcome w w' -> P w') ->
  forall w, reachable w -> P w.
Proof.
  intros Hinit Hstep w Hreach.
  induction Hreach as [room rs Hrs | w e w' Hreach IH Hs]; [now apply Hinit |].
  apply (Hstep w w' Hreach IH). exact (step_outcome _ _ _ Hs).
Qed.

(** ** Dropping the last segment *)

Lemma removelast_cons_length {A : Type} (a : A) (l : list A) :
  List.length (removelast (a :: l)) = List.length l.
Proof.
  revert a. induction l as [| b l IH]; intros a; [reflexivity |].
  change (removelast (a :: b :: l)) with (a :: removelast (b :: l)).
  cbn [List.length]. now rewrite IH.
Qed.

Lemma In_removelast {A : Type} (c : A) (l : list A) :
  In c (removelast l) -> In c l.
Proof.
  induction l as [| a l IH]; [easy |].
  destruct l as [| b l]; [easy |].
  change (removelast (a :: b :: l)) with (a :: removelast (b :: l)).
  intros [-> | Hin]; [now left | right; now apply IH].
Qed.

Lemma NoDup_removelast {A : Type} (l : list A) :
  NoDup l -> NoDup (removelast l).
Proof.
  induction 1 as [| a l Hnotin Hnodup IH]; [constructor |].
  destruct l as [| b l]; [constructor |].
  change (removelast (a :: b :: l)) with (a :: removelast (b :: l)).
  constructor; [| assumption].
  intros Hin. apply Hnotin. now apply In_removelast.
Qed.

Lemma chain_removelast (s : list Cell) :
  chain s -> chain (removelast s).
Proof.
  induction s as [| a s IH]; [easy |].
  destruct s as [| b s]; [easy |].
  intros [Hab Hrest].
  change (removelast (a :: b :: s)) with (a :: removelast (b :: s)).
  destruct s as [| c s]; [exact I |].
  change (removelast (b :: c :: s)) with (b :: removelast (c :: s)) in *.
  split; [assumption | now apply IH].
Qed.

Lemma advance_adjacent (d : Direction) (first : Cell) :
  adjacent (advance d first) first.
Proof.
  unfold adjacent. destruct d; cbn [advance x y]; lia.
Qed.

(** ** Invariants of a session *)

Lemma reachable_snake_ok (w : World) :
  reachable w -> snake_ok (state w).
Proof.
  induction 1 as [room rs _ | w e w' _ IH Hstep].
  - split; cbn; [discriminate |]. repeat constructor; cbn; unfold GRID_SIZE; lia.
  - eapply step_keeps_snake_ok; eassumption.
Qed.

Lemma reachable_snake_NoDup :
  forall w : World, reachable w -> NoDup (snake (state w)).
Proof.
  apply reachable_ind_outcome.
  - intros room rs _. cbn. repeat constructor. intros [].
  - intros w w' _ IH Hout. outcome_cases Hout; try assumption.
    + repeat constructor. intros [].
    + repeat constructor. intros [].
    + now constructor.
    + constructor; [| now apply NoDup_removelast].
      intros Hin. apply Hself. now apply In_removelast.
Qed.

(** X1.  The snake of a reachable state never lies on one cell twice:
    no two of its segments, at different places of the list, are the
    same cell. *)
Theorem reachable_snake_has_no_repeated_cell :
  forall (w : World) (i j : nat) (a b : Cell),
    reachable w ->
    nth_error (snake (state w)) i = Some a ->
    nth_error (snake (state w)) j = Some b ->
    i <> j ->
    a <> b.
Proof.
  intros w i j a b Hreach Hi Hj Hij Hab. subst b. apply Hij.
  apply (proj1 (NoDup_nth_error (snake (state w))) (reachable_snake_NoDup w Hreach)).
  - apply nth_error_Some. congruence.
  - congruence.
Qed.

(** X2.  In a reachable state each segment of the snake shares a side
    with the next one. *)
Theorem reachable_snake_is_connected :
  forall w : World, reachable w -> chain (snake (state w)).
Proof.
  apply reachable_ind_outcome.
  - intros room rs _. exact I.
  - intros w w' _ IH Hout. outcome_cases Hout; try assumption.
    + exact I.
    + exact I.
    + rewrite Hsnake in *. split; [apply advance_adjacent | assumption].
    + rewrite Hsnake in *.
      destruct body as [| second body]; [exact I |].
      change (removelast (first :: second :: body))
        with (first :: removelast (second :: body)).
      split; [apply advance_adjacent |].
      exact (chain_removelast (first :: second :: body) IH).
Qed.

Lemma reachable_score_and_speed (w : World) :
  reachable w ->
  score (state w) = 10 * (segments (state w) - 1)
  /\ speed (state w) = Z.max (INITIAL_SPEED - SPEED_INCREASE * (segments (state w) - 1)) 50.
Proof.
  revert w. apply reachable_ind_outcome.
  - intros room rs _. split; reflexivity.
  - intros w w' _ [IHscore IHspeed] Hout. unfold segments in *.
    outcome_cases Hout; try (split; assumption).
    + split; reflexivity.
    + split; reflexivity.
    + cbn [List.length]. unfold INITIAL_SPEED, SPEED_INCREASE in *. split; lia.
    + rewrite Hsnake in *. cbn [List.length] in *.
      rewrite removelast_cons_length. cbn [List.length] in *. split; assumption.
Qed.

(** X3.  In a reachable state the score is ten times the number of
    segments the snake has gained since it was reset to one. *)
Theorem reachable_score_counts_segments :
  forall w : World,
    reachable w ->
    score (state w) = 10 * (Z.of_nat (List.length (snake (state w))) - 1).
Proof.
  intros w Hreach. apply (reachable_score_and_speed w Hreach).
Qed.

(** X4.  In a reachable state the speed interval is a function of the
    score: 150 less half the score, held at 50; it lies between 50 and
    150, and so does the delay of every timeout the game loop arms. *)
Theorem reachable_speed_follows_score :
  forall w : World,
    reachable w ->
    speed (state w) = Z.max (150 - score (state w) / 2) 50
    /\ 50 <= speed (state w) <= 150
    /\ (forall delay, gameLoop (state w) = Some delay -> 50 <= delay <= 150).
Proof.
  intros w Hreach.
  destruct (reachable_score_and_speed w Hreach) as [Hscore Hspeed].
  unfold segments, INITIAL_SPEED, SPEED_INCREASE in *.
  assert (Hlen : 1 <= Z.of_nat (List.length (snake (state w)))).
  { destruct (reachable_snake_ok w Hreach) as [Hne _].
    destruct (snake (state w)); [contradiction | cbn [List.length]; lia]. }
  assert (Hbounds : 50 <= speed (state w) <= 150) by lia.
  split; [| split; [exact Hbounds |]].
  - rewrite Hspeed, Hscore. f_equal.
    replace (10 * (Z.of_nat (List.length (snake (state w))) - 1))
      with ((Z.of_nat (List.length (snake (state w))) - 1) * 5 * 2) by lia.
    rewrite Z.div_mul by lia. lia.
  - intros delay. unfold gameLoop.
    destruct (negb (gameStarted (state w)) || isPaused (state w) || gameOver (state w));
      [discriminate |].
    intros [= <-]. exact Hbounds.
Qed.

Lemma reachable_food_and_random :
  forall w : World,
    reachable w -> in_grid (food (state w)) /\ Forall random_ok (random w).
Proof.
  apply reachable_ind_outcome.
  - intros room rs Hrs. split; [| exact Hrs]. unfold in_grid, GRID_SIZE; cbn; lia.
  - intros w w' _ [IHfood IHrandom] Hout.
    outcome_cases Hout; try (split; assumption).
    + destruct (placeFood_draws_sound _ _ _ _ _ IHrandom Hplace) as (Hin & _ & Hrest).
      now split.
    + split; [assumption | exact (placeFood_draws_thrown _ _ _ _ _ IHrandom Hplace)].
    + destruct (placeFood_draws_sound _ _ _ _ _ IHrandom Hplace) as (Hin & _ & Hrest).
      now split.
Qed.

(** X5.  In a reachable state the food lies on the grid. *)
Theorem reachable_food_on_grid :
  forall w : World,
    reachable w ->
    0 <= x (food (state w)) < 20 /\ 0 <= y (food (state w)) < 20.
Proof.
  intros w Hreach. apply (reachable_food_and_random w Hreach).
Qed.

(** X6.  In a reachable state the [direction] cell holds what
    [directionRef] holds. *)
Theorem reachable_direction_mirrors_ref :
  forall w : World, reachable w -> direction (state w) = directionRef w.
Proof.
  apply reachable_ind_outcome.
  - intros room rs _. reflexivity.
  - intros w w' _ IH Hout. outcome_cases Hout; try assumption; reflexivity.
Qed.

(** X7.  In a reachable state in which the game is over, the last toast
    shown carries the score of the state: the toast and the final score
    of the overlay agree. *)
Theorem reachable_game_over_toast_shows_score :
  forall w : World,
    reachable w ->
    gameOver (state w) = true ->
    exists earlier : list Toast,
      toasts w = earlier ++ [GameOverToast (score (state w))].
Proof.
  apply (reachable_ind_outcome
           (fun w => gameOver (state w) = true ->
                     exists earlier, toasts w = earlier ++ [GameOverToast (score (state w))])).
  - intros room rs _. discriminate.
  - intros w w' _ IH Hout. outcome_cases Hout; try assumption.
    + discriminate.
    + discriminate.
    + intros _. now exists (toasts w).
    + destruct Hrun as (_ & _ & Hgo). congruence.
Qed.

(** X8.  An event shows a toast exactly when it takes [gameOver] from
    false to true; the toast then carries the score, and every other
    event leaves the toasts as they were. *)
Theorem toast_exactly_on_game_over :
  forall (w w' : World) (e : Event),
    step w e = Some w' ->
    toasts w' =
      if negb (gameOver (state w)) && gameOver (state w')
      then toasts w ++ [GameOverToast (score (state w'))]
      else toasts w.
Proof.
  intros w w' e Hstep. apply step_outcome in Hstep.
  outcome_cases Hstep.
  - now destruct (gameOver (state w)).
  - now destruct (gameOver (state w)).
  - now destruct (gameOver (state w)).
  - now rewrite andb_false_r.
  - now rewrite andb_false_r.
  - destruct Hrun as (_ & _ & ->). reflexivity.
  - now destruct (gameOver (state w)).
  - now destruct (gameOver (state w)).
Qed.

(** ** The snake and the grid *)

Lemma in_grid_all_cells (c : Cell) :
  in_grid c -> In c all_cells.
Proof.
  destruct c as [cx cy]. unfold in_grid, all_cells, GRID_SIZE. cbn [x y].
  intros [Hx Hy]. apply in_flat_map. exists (Z.to_nat cx). split.
  - apply in_seq. lia.
  - apply in_map_iff. exists (Z.to_nat cy). split.
    + f_equal; lia.
    + apply in_seq. lia.
Qed.

(** X9.  The snake of a reachable state has at most 400 segments, so the
    score never exceeds 3990. *)
Theorem reachable_snake_fits_grid :
  forall w : World,
    reachable w ->
    (List.length (snake (state w)) <= 400)%nat /\ score (state w) <= 3990.
Proof.
  intros w Hreach.
  assert (Hlen : (List.length (snake (state w)) <= 400)%nat).
  { change 400%nat with (List.length all_cells).
    apply NoDup_incl_length.
    - now apply reachable_snake_NoDup.
    - intros c Hin. apply in_grid_all_cells.
      destruct (reachable_snake_ok w Hreach) as [_ Hall].
      rewrite Forall_forall in Hall. now apply Hall. }
  split; [exact Hlen |].
  destruct (reachable_score_and_speed w Hreach) as [-> _]. unfold segments. lia.
Qed.

(** ** What is drawn *)

(** X10.  In a reachable state the square of every segment and the
    square of the food lie within the board. *)
Theorem reachable_page_draws_on_board :
  forall w : World,
    reachable w ->
    (forall segment, In segment (snake (state w)) -> on_board (segmentBox segment))
    /\ on_board (foodBox (food (state w))).
Proof.
  intros w Hreach. split.
  - intros segment Hin.
    destruct (reachable_snake_ok w Hreach) as [_ Hall].
    rewrite Forall_forall in Hall. destruct (Hall segment Hin) as [Hx Hy].
    unfold on_board, segmentBox, board, GRID_SIZE, CELL_SIZE in *. cbn [left top width height]. lia.
  - destruct (reachable_food_and_random w Hreach) as [[Hx Hy] _].
    unfold on_board, foodBox, board, GRID_SIZE, CELL_SIZE in *. cbn [left top width height]. lia.
Qed.

(** X11.  In a reachable state the squares of two segments at different
    places of the snake share no point. *)
Theorem reachable_segments_drawn_apart :
  forall (w : World) (i j : nat) (a b : Cell),
    reachable w ->
    nth_error (snake (state w)) i = Some a ->
    nth_error (snake (state w)) j = Some b ->
    i <> j ->
    apart (segmentBox a) (segmentBox b).
Proof.
  intros w i j a b Hreach Hi Hj Hij.
  assert (Hab : a <> b).
  { intros ->. apply Hij.
    apply (proj1 (NoDup_nth_error (snake (state w))) (reachable_snake_NoDup w Hreach)).
    - apply nth_error_Some. congruence.
    - congruence. }
  destruct a as [ax ay], b as [bx by_].
  assert (Hsplit : ax <> bx \/ ay <> by_).
  { destruct (Z.eq_dec ax bx) as [-> | Hx]; [| now left].
    destruct (Z.eq_dec ay by_) as [-> | Hy]; [| now right].
    now contradiction Hab. }
  unfold apart, segmentBox, CELL_SIZE. cbn [left top width height x y]. lia.
Qed.

(** ** Sessions that are not running *)

Lemma handleKeyDown_result (key : string) (w w' : World) :
  dispatch (handleKeyDown key) w = Some w' ->
  w' = w \/ (exists d, w' = turned d w) \/ w' = flipped w.
Proof.
  unfold dispatch, handleKeyDown; simpl_callback.
  repeat match goal with
         | |- context [if ?b then _ else _] => destruct b
         end; cbn; intros [= <-];
    first [ now left
          | right; right; reflexivity
          | right; left; eexists; reflexivity ].
Qed.

Lemma handleDirectionButton_result (newDirection : Direction) (w w' : World) :
  dispatch (handleDirectionButton newDirection) w = Some w' ->
  w' = w \/ (exists d, w' = turned d w) \/ w' = flipped w.
Proof.
  unfold dispatch, handleDirectionButton; simpl_callback.
  destruct (_ || _); cbn; intros [= <-]; [right; left; now eexists | now left].
Qed.

(** X12.  While the session is not started, paused or over, a tick does
    nothing, and no event but the start button changes the snake, the
    food, the score, the speed, the toasts, the random values still to
    come, or the started and over flags. *)
Theorem idle_session_is_frozen :
  forall w : World,
    ~ running (state w) ->
    dispatch moveSnake w = Some w
    /\ forall (e : Event) (w' : World),
         step w e = Some w' ->
         e <> StartButton ->
         snake (state w') = snake (state w)
         /\ food (state w') = food (state w)
         /\ score (state w') = score (state w)
         /\ speed (state w') = speed (state w)
         /\ gameStarted (state w') = gameStarted (state w)
         /\ gameOver (state w') = gameOver (state w)
         /\ toasts w' = toasts w
         /\ random w' = random w.
Proof.
  intros w Hidle.
  assert (Hguard : gameOver (state w) || isPaused (state w) || negb (gameStarted (state w)) = true).
  { destruct (gameStarted (state w)) eqn:Hgs, (isPaused (state w)) eqn:Hip,
      (gameOver (state w)) eqn:Hgo; try reflexivity.
    exfalso. apply Hidle. now repeat split. }
  split.
  - unfold dispatch, moveSnake. now rewrite Hguard.
  - intros e w' Hstep Hstart.
    assert (Hcases : w' = w \/ (exists d, w' = turned d w) \/ w' = flipped w).
    { unfold step in Hstep. destruct e; cbn [enabled callback] in Hstep.
      - replace (negb (negb (gameStarted (state w)) || isPaused (state w) || gameOver (state w)))
          with false in Hstep; [discriminate |].
        destruct (gameStarted (state w)), (isPaused (state w)), (gameOver (state w));
          try reflexivity; discriminate.
      - now apply handleKeyDown_result in Hstep.
      - now apply handleDirectionButton_result in Hstep.
      - destruct (gameStarted (state w) && negb (gameOver (state w))); [| discriminate].
        cbn in Hstep. injection Hstep as <-. now right; right.
      - cbn in Hstep. injection Hstep as <-. now right; right.
      - contradiction. }
    destruct Hcases as [-> | [[d ->] | ->]]; now repeat split.
Qed.

(** X13.  Pausing and resuming gives the state back exactly: two calls of
    [togglePause] in a row, or two presses of the space bar, undo each
    other. *)
Theorem togglePause_twice_restores :
  forall w : World,
    exists w1 : World,
      dispatch togglePause w = Some w1
      /\ dispatch togglePause w1 = Some w
      /\ dispatch (handleKeyDown " ") w = Some w1
      /\ dispatch (handleKeyDown " ") w1 = Some w.
Proof.
  intros [[s f d go ip sc sp gs] dref rs ts].
  eexists. split; [reflexivity |].
  cbn. rewrite negb_involutive. now repeat split.
Qed.

(** X14.  A key other than the four arrows and the space bar leaves the
    whole state as it is. *)
Theorem other_keys_are_ignored :
  forall (key : string) (w : World),
    key <> "ArrowUp"%string ->
    key <> "ArrowDown"%string ->
    key <> "ArrowLeft"%string ->
    key <> "ArrowRight"%string ->
    key <> " "%string ->
    step w (KeyDown key) = Some w.
Proof.
  intros key w Hup Hdown Hleft Hright Hspace.
  apply String.eqb_neq in Hup, Hdown, Hleft, Hright, Hspace.
  unfold step, dispatch, handleKeyDown; simpl_callback.
  now rewrite Hup, Hdown, Hleft, Hright, Hspace.
Qed.

(** ** The page and the game loop *)

(** X16.  The game loop arms its timeout exactly when neither overlay
    covers the board; the two overlays are never shown together, and the
    pause button of the header is shown exactly when the overlay with
    the start button is not. *)
Theorem loop_runs_when_no_overlay :
  forall g : Game,
    (gameLoop g <> None <-> startOverlay g = false /\ pauseOverlay g = false)
    /\ (startOverlay g && pauseOverlay g = false)
    /\ headerPauseButton g = negb (startOverlay g)
    /\ (gameLoop g <> None <-> enabled Timer g = true).
Proof.
  intros [s f d go ip sc sp gs].
  unfold gameLoop, startOverlay, pauseOverlay, headerPauseButton; cbn.
  destruct go, ip, gs; cbn; repeat split; try congruence; intros; try tauto;
    try (intros [_ Habs]; discriminate); try (destruct H; discriminate).
Qed.

Lemma keys_tell_apart_on_grid : keys_tell_apart all_cells = true.
Proof. vm_compute. reflexivity. Qed.

Lemma keys_tell_apart_sound (cells : list Cell) :
  keys_tell_apart cells = true ->
  forall a b, In a cells -> In b cells -> segmentKey a = segmentKey b -> a = b.
Proof.
  unfold keys_tell_apart. intros Hcheck a b Ha Hb Hkey.
  rewrite forallb_forall in Hcheck. specialize (Hcheck a Ha).
  rewrite forallb_forall in Hcheck. specialize (Hcheck b Hb).
  apply String.eqb_eq in Hkey. rewrite Hkey in Hcheck. cbn [implb] in Hcheck.
  apply same_cell_eq in Hcheck. congruence.
Qed.

Lemma segmentKey_injective_on_grid (a b : Cell) :
  in_grid a -> in_grid b -> segmentKey a = segmentKey b -> a = b.
Proof.
  intros Ha Hb.
  exact (keys_tell_apart_sound all_cells keys_tell_apart_on_grid a b
           (in_grid_all_cells a Ha) (in_grid_all_cells b Hb)).
Qed.

(** X17.  In a reachable state the React keys of the rendered segments
    are pairwise different. *)
Theorem reachable_segment_keys_differ :
  forall w : World,
    reachable w -> NoDup (map segmentKey (snake (state w))).
Proof.
  intros w Hreach.
  pose proof segmentKey_injective_on_grid as Hinj.
  destruct (reachable_snake_ok w Hreach) as [_ Hall].
  pose proof (reachable_snake_NoDup w Hreach) as Hnodup.
  induction Hnodup as [| a l Hnotin Hnodup IH]; [constructor |].
  inversion Hall as [| ? ? Ha Hl]; subst. cbn [map]. constructor; [| now apply IH].
  intros Hin. apply in_map_iff in Hin. destruct Hin as [b [Hkey Hb]].
  rewrite Forall_forall in Hl.
  apply Hnotin. rewrite <- (Hinj b a (Hl b Hb) Ha Hkey). exact Hb.
Qed.

(** ** Sampling *)

Lemma within_lands (n : Z) :
  0 <= n < GRID_SIZE ->
  random_ok (within n) /\ Math_floor (times (within n) GRID_SIZE) = n.
Proof.
  intros Hn.
  assert (Hcheck :
    forallb (fun k =>
               (0 <=? mantissa (within k)) && (mantissa (within k) <? 2 ^ 10)
               && (Math_floor (times (within k) GRID_SIZE) =? k))
            (map Z.of_nat (seq 0 20)) = true) by (vm_compute; reflexivity).
  rewrite forallb_forall in Hcheck. specialize (Hcheck n).
  rewrite !andb_true_iff, Z.leb_le, Z.ltb_lt, Z.eqb_eq in Hcheck.
  destruct Hcheck as [[Hlow Hhigh] Hfloor].
  { apply in_map_iff. exists (Z.to_nat n). unfold GRID_SIZE in Hn.
    split; [lia | apply in_seq; lia]. }
  split; [| exact Hfloor].
  unfold random_ok. cbn [within exponent] in *. change (- -10) with 10.
  assert (H53 : 2 ^ 10 < 2 ^ 53) by (apply Z.pow_lt_mono_r; lia).
  repeat split; lia.
Qed.

(** X15.  Every cell of the grid can be drawn: for each there are two
    doubles in [0, 1) on which [placeFood] commits that cell at its
    first attempt, whatever snake it tests, as long as the cell is off
    that snake and the stack has room for one call. *)
Theorem every_cell_can_be_drawn :
  forall c : Cell,
    in_grid c ->
    exists rx ry : Double,
      random_ok rx /\ random_ok ry
      /\ forall (s : list Cell) (rest : list Double) (room : nat),
           ~ In c s ->
           placeFood_draws (S room) s (rx :: ry :: rest) = Some (Returned c, rest).
Proof.
  intros [cx cy] [Hx Hy]. cbn [x y] in Hx, Hy.
  destruct (within_lands cx Hx) as [Hokx Hcx].
  destruct (within_lands cy Hy) as [Hoky Hcy].
  exists (within cx), (within cy).
  split; [exact Hokx |]. split; [exact Hoky |].
  intros s rest room Hoff. apply none_same_cell in Hoff.
  cbn [placeFood_draws]. unfold sampled. rewrite Hcx, Hcy. now rewrite Hoff.
Qed.

(** ** What an event changes *)

(** X18.  Score, length and speed change together: an event other than
    the start button either leaves all three as they were, or the head
    has landed on the food and the score goes up by 10, the snake gains
    one segment and the speed interval becomes [max (speed - 5) 50]. *)
Theorem score_length_speed_change_together :
  forall (w w' : World) (e : Event),
    step w e = Some w' ->
    e <> StartButton ->
    (score (state w') = score (state w)
     /\ List.length (snake (state w')) = List.length (snake (state w))
     /\ speed (state w') = speed (state w)
     /\ food (state w') = food (state w))
    \/ (score (state w') = score (state w) + 10
        /\ snake (state w') = food (state w) :: snake (state w)
        /\ speed (state w') = Z.max (speed (state w) - 5) 50).
Proof.
  intros w w' e Hstep Hstart.
  unfold step in Hstep.
  destruct (enabled e (state w)) eqn:Hen; [| discriminate].
  destruct e; try contradiction; cbn [enabled callback] in Hstep, Hen.
  - assert (Hrun : running (state w)).
    { unfold running.
      destruct (gameStarted (state w)), (isPaused (state w)), (gameOver (state w));
        try discriminate. now repeat split. }
    destruct (moveSnake_cases w w' Hrun Hstep)
      as [-> | [(first & body & Hsnake & Hhit & ->)
             | [(first & body & newFood & rest & Hsnake & Hgrid & Hself & Hfood & Hplace & ->)
             | (first & body & Hsnake & Hgrid & Hself & Hfood & ->)]]].
    + left. now repeat split.
    + left. now repeat split.
    + right. rewrite <- Hfood. now repeat split.
    + left. cbn [moved state snake score speed food]. rewrite Hsnake.
      cbn [List.length]. rewrite removelast_cons_length. now repeat split.
  - apply handleKeyDown_result in Hstep.
    destruct Hstep as [-> | [[d' ->] | ->]]; left; now repeat split.
  - apply handleDirectionButton_result in Hstep.
    destruct Hstep as [-> | [[d' ->] | ->]]; left; now repeat split.
  - cbn in Hstep. injection Hstep as <-. left; now repeat split.
  - cbn in Hstep. injection Hstep as <-. left; now repeat split.
Qed.

(** X19.  The food committed by a tick that eats lies on the grid and
    off every segment of the snake as it was before the tick; on the
    grown snake it can only be under the new head. *)
Theorem food_after_eating_is_off_the_old_snake :
  forall w w' : World,
    Forall random_ok (random w) ->
    step w Timer = Some w' ->
    score (state w') = score (state w) + 10 ->
    in_grid (food (state w'))
    /\ ~ In (food (state w')) (snake (state w))
    /\ (In (food (state w')) (snake (state w')) ->
        Some (food (state w')) = hd_error (snake (state w'))).
Proof.
  intros w w' Hrandom Hstep Hscore.
  unfold step in Hstep.
  destruct (enabled Timer (state w)) eqn:Hen; [| discriminate].
  cbn [enabled callback] in Hstep, Hen.
  assert (Hrun : running (state w)).
  { unfold running.
    destruct (gameStarted (state w)), (isPaused (state w)), (gameOver (state w));
      try discriminate. now repeat split. }
  destruct (moveSnake_cases w w' Hrun Hstep)
    as [-> | [(first & body & Hsnake & Hhit & ->)
           | [(first & body & newFood & rest & Hsnake & Hgrid & Hself & Hfood & Hplace & ->)
           | (first & body & Hsnake & Hgrid & Hself & Hfood & ->)]]];
    cbn [crashed grown moved state score food snake] in *; try lia.
  destruct (placeFood_draws_sound _ _ _ _ _ Hrandom Hplace) as (Hin & Hoff & _).
  split; [exact Hin |]. split; [exact Hoff |].
  intros [<- | Hold]; [reflexivity | contradiction].
Qed.

(** X20.  Once started, a session stays started: no event puts the page
    back to the state before the first game. *)
Theorem started_session_stays_started :
  forall (w w' : World) (e : Event),
    step w e = Some w' ->
    gameStarted (state w) = true ->
    gameStarted (state w') = true.
Proof.
  intros w w' e Hstep Hstarted. apply step_outcome in Hstep.
  outcome_cases Hstep; first [assumption | reflexivity].
Qed.

(** X21.  Until the start button is pressed for the first time, the
    board of a reachable state is the one of the first render: the snake
    is the segment at (8,8), the food is at (5,5), the score is 0, the
    speed is 150, the game is not over and no toast has been shown. *)
Theorem reachable_board_untouched_before_start :
  forall w : World,
    reachable w ->
    gameStarted (state w) = false ->
    snake (state w) = [mkCell 8 8]
    /\ food (state w) = mkCell 5 5
    /\ score (state w) = 0
    /\ speed (state w) = 150
    /\ gameOver (state w) = false
    /\ toasts w = [].
Proof.
  apply (reachable_ind_outcome
           (fun w => gameStarted (state w) = false ->
                     snake (state w) = [mkCell 8 8]
                     /\ food (state w) = mkCell 5 5
                     /\ score (state w) = 0
                     /\ speed (state w) = 150
                     /\ gameOver (state w) = false
                     /\ toasts w = [])).
  - intros room rs _ _. now repeat split.
  - intros w w' _ IH Hout. outcome_cases Hout; try assumption;
      try discriminate.
    + (* the start button, ended by an exception, before the first game *)
      intros Hidle. destruct (IH Hidle) as (_ & Hfood & _ & _ & _ & Htoasts).
      now repeat split.
    + destruct Hrun as (Hgs & _ & _); congruence.
    + destruct Hrun as (Hgs & _ & _); congruence.
    + destruct Hrun as (Hgs & _ & _); congruence.
Qed.

(** X22.  The cell of the last segment is fatal too: a tick of a running
    session whose new head is the cell the tail is about to leave ends
    the game and leaves the snake where it was. *)
Theorem entering_the_tail_cell_is_game_over :
  forall (w : World) (first : Cell) (body : list Cell),
    running (state w) ->
    snake (state w) = first :: body ->
    advance (directionRef w) first = last (snake (state w)) first ->
    step w Timer = Some (crashed w).
Proof.
  intros w first body Hrun Hsnake Htail.
  assert (Hin : In (advance (directionRef w) first) (snake (state w))).
  { rewrite Htail, Hsnake. clear. generalize first at 1 3 as a.
    induction body as [| b body IH]; intros a; [now left |].
    change (last (a :: b :: body) first) with (last (b :: body) first).
    right. apply IH. }
  unfold step. cbn [enabled callback].
  destruct Hrun as (Hgs & Hip & Hgo). rewrite Hgs, Hip, Hgo. cbn [negb orb].
  destruct w as [[s f d go ip sc sp gs] dref rs ts].
  cbn [state snake directionRef gameStarted isPaused gameOver] in *. subst.
  unfold dispatch, moveSnake, setSnakeWith; simpl_callback.
  set (head := advance dref first) in *.
  apply some_same_cell in Hin. rewrite Hin, !orb_true_r. reflexivity.
Qed.

(** ** Instances of the further properties *)

Lemma reachable_run (w w' : World) (es : list Event) :
  reachable w -> run w es = Some w' -> reachable w'.
Proof.
  revert w. induction es as [| e es IH]; intros w Hreach; cbn [run].
  - now intros [= <-].
  - destruct (step w e) as [w1 |] eqn:Hstep; [| discriminate].
    apply IH. exact (reachable_step w e w1 Hreach Hstep).
Qed.

Lemma reachable_two_segments : reachable two_segments.
Proof.
  apply (reachable_run (initial deep [d0_45; d0_4; d0_25; d0_25]) two_segments
           [StartButton; Timer]).
  - apply reachable_initial.
    repeat constructor;
      first [apply random_ok_d0_45 | apply random_ok_d0_4 | apply random_ok_d0_25].
  - vm_compute. reflexivity.
Qed.

Lemma reachable_after_reversal : reachable after_reversal.
Proof.
  apply (reachable_run two_segments after_reversal
           [KeyDown "ArrowUp"; KeyDown "ArrowLeft"; Timer] reachable_two_segments).
  vm_compute. reflexivity.
Qed.

Lemma reachable_snake_has_no_repeated_cell_witness :
  mkCell 9 8 <> mkCell 8 8.
Proof.
  apply (reachable_snake_has_no_repeated_cell two_segments 0 1).
  - exact reachable_two_segments.
  - reflexivity.
  - reflexivity.
  - lia.
Defined.

Lemma reachable_snake_is_connected_witness :
  chain (snake (state two_segments)).
Proof.
  apply (reachable_snake_is_connected two_segments). exact reachable_two_segments.
Defined.

Lemma reachable_score_counts_segments_witness :
  score (state two_segments)
  = 10 * (Z.of_nat (List.length (snake (state two_segments))) - 1).
Proof.
  apply (reachable_score_counts_segments two_segments). exact reachable_two_segments.
Defined.

Lemma reachable_speed_follows_score_witness :
  speed (state two_segments) = Z.max (150 - score (state two_segments) / 2) 50
  /\ 50 <= speed (state two_segments) <= 150
  /\ (forall delay, gameLoop (state two_segments) = Some delay -> 50 <= delay <= 150).
Proof.
  apply (reachable_speed_follows_score two_segments). exact reachable_two_segments.
Defined.

Lemma reachable_food_on_grid_witness :
  0 <= x (food (state two_segments)) < 20 /\ 0 <= y (food (state two_segments)) < 20.
Proof.
  apply (reachable_food_on_grid two_segments). exact reachable_two_segments.
Defined.

Lemma reachable_direction_mirrors_ref_witness :
  direction (state after_reversal) = directionRef after_reversal.
Proof.
  apply (reachable_direction_mirrors_ref after_reversal). exact reachable_after_reversal.
Defined.

Lemma reachable_game_over_toast_shows_score_witness :
  exists earlier : list Toast,
    toasts after_reversal = earlier ++ [GameOverToast (score (state after_reversal))].
Proof.
  apply (reachable_game_over_toast_shows_score after_reversal).
  - exact reachable_after_reversal.
  - reflexivity.
Defined.

Lemma toast_exactly_on_game_over_witness :
  toasts after_reversal =
    if negb (gameOver (state about_to_reverse)) && gameOver (state after_reversal)
    then toasts about_to_reverse ++ [GameOverToast (score (state after_reversal))]
    else toasts about_to_reverse.
Proof.
  apply (toast_exactly_on_game_over about_to_reverse after_reversal Timer).
  vm_compute. reflexivity.
Defined.

Lemma reachable_snake_fits_grid_witness :
  (List.length (snake (state two_segments)) <= 400)%nat
  /\ score (state two_segments) <= 3990.
Proof.
  apply (reachable_snake_fits_grid two_segments). exact reachable_two_segments.
Defined.

Lemma reachable_page_draws_on_board_witness :
  (forall segment, In segment (snake (state two_segments)) ->
     on_board (segmentBox segment))
  /\ on_board (foodBox (food (state two_segments))).
Proof.
  apply (reachable_page_draws_on_board two_segments). exact reachable_two_segments.
Defined.

Lemma reachable_segments_drawn_apart_witness :
  apart (segmentBox (mkCell 9 8)) (segmentBox (mkCell 8 8)).
Proof.
  apply (reachable_segments_drawn_apart two_segments 0 1).
  - exact reachable_two_segments.
  - reflexivity.
  - reflexivity.
  - lia.
Defined.

Lemma idle_session_is_frozen_witness :
  dispatch moveSnake after_reversal = Some after_reversal
  /\ forall (e : Event) (w' : World),
       step after_reversal e = Some w' ->
       e <> StartButton ->
       snake (state w') = snake (state after_reversal)
       /\ food (state w') = food (state after_reversal)
       /\ score (state w') = score (state after_reversal)
       /\ speed (state w') = speed (state after_reversal)
       /\ gameStarted (state w') = gameStarted (state after_reversal)
       /\ gameOver (state w') = gameOver (state after_reversal)
       /\ toasts w' = toasts after_reversal
       /\ random w' = random after_reversal.
Proof.
  apply (idle_session_is_frozen after_reversal).
  intros (_ & _ & Hover). discriminate Hover.
Defined.

Lemma other_keys_are_ignored_witness :
  step two_segments (KeyDown "Enter") = Some two_segments.
Proof.
  apply (other_keys_are_ignored "Enter" two_segments); discriminate.
Defined.

Lemma every_cell_can_be_drawn_witness :
  exists rx ry : Double,
    random_ok rx /\ random_ok ry
    /\ forall (s : list Cell) (rest : list Double) (room : nat),
         ~ In (mkCell 19 0) s ->
         placeFood_draws (S room) s (rx :: ry :: rest)
         = Some (Returned (mkCell 19 0), rest).
Proof.
  apply (every_cell_can_be_drawn (mkCell 19 0)).
  unfold in_grid, GRID_SIZE; cbn; lia.
Defined.

Lemma reachable_segment_keys_differ_witness :
  NoDup (map segmentKey (snake (state two_segments))).
Proof.
  apply (reachable_segment_keys_differ two_segments). exact reachable_two_segments.
Defined.

Lemma score_length_speed_change_together_witness :
  (score (state after_reversal) = score (state about_to_reverse)
   /\ List.length (snake (state after_reversal))
      = List.length (snake (state about_to_reverse))
   /\ speed (state after_reversal) = speed (state about_to_reverse)
   /\ food (state after_reversal) = food (state about_to_reverse))
  \/ (score (state after_reversal) = score (state about_to_reverse) + 10
      /\ snake (state after_reversal)
         = food (state about_to_reverse) :: snake (state about_to_reverse)
      /\ speed (state after_reversal)
         = Z.max (speed (state about_to_reverse) - 5) 50).
Proof.
  apply (score_length_speed_change_together about_to_reverse after_reversal Timer).
  - vm_compute. reflexivity.
  - discriminate.
Defined.

Lemma food_after_eating_is_off_the_old_snake_witness :
  in_grid (food (state two_segments))
  /\ ~ In (food (state two_segments)) [mkCell 8 8]
  /\ (In (food (state two_segments)) (snake (state two_segments)) ->
      Some (food (state two_segments)) = hd_error (snake (state two_segments))).
Proof.
  apply (food_after_eating_is_off_the_old_snake
           (session [mkCell 8 8] (mkCell 9 8) RIGHT 0 [d0_25; d0_25]) two_segments).
  - repeat constructor; apply random_ok_d0_25.
  - vm_compute. reflexivity.
  - reflexivity.
Defined.

Lemma started_session_stays_started_witness :
  gameStarted (state after_reversal) = true.
Proof.
  apply (started_session_stays_started about_to_reverse after_reversal Timer).
  - vm_compute. reflexivity.
  - reflexivity.
Defined.

Lemma reachable_board_untouched_before_start_witness :
  snake (state (turned UP (initial deep []))) = [mkCell 8 8]
  /\ food (state (turned UP (initial deep []))) = mkCell 5 5
  /\ score (state (turned UP (initial deep []))) = 0
  /\ speed (state (turned UP (initial deep []))) = 150
  /\ gameOver (state (turned UP (initial deep []))) = false
  /\ toasts (turned UP (initial deep [])) = [].
Proof.
  apply (reachable_board_untouched_before_start (turned UP (initial deep []))).
  - apply (reachable_step (initial deep []) (KeyDown "ArrowUp")).
    + apply reachable_initial. constructor.
    + reflexivity.
  - reflexivity.
Defined.

Lemma entering_the_tail_cell_is_game_over_witness :
  step (session [mkCell 1 1; mkCell 1 2; mkCell 2 2; mkCell 2 1] (mkCell 5 5) RIGHT 30 [])
       Timer
  = Some (crashed
            (session [mkCell 1 1; mkCell 1 2; mkCell 2 2; mkCell 2 1] (mkCell 5 5) RIGHT 30 [])).
Proof.
  apply (entering_the_tail_cell_is_game_over
           (session [mkCell 1 1; mkCell 1 2; mkCell 2 2; mkCell 2 1] (mkCell 5 5) RIGHT 30 [])
           (mkCell 1 1) [mkCell 1 2; mkCell 2 2; mkCell 2 1]).
  - apply running_session.
  - reflexivity.
  - reflexivity.
Defined.
